(** * Syllable Counter: the estimator and the synchronization pass

    A shallow embedding of [src/main.ts] (class [SyllableCounterPlugin]):
    [countSyllables] and the helpers it uses from the JavaScript string
    library, then [getVisibleLineRange] and [updateSyllableCounts] with the
    plugin's fields threaded as an explicit state. *)

From Stdlib Require Import String Ascii Numbers.DecimalString.
From Stdlib Require Import ZArith NArith Bool Lia List Sorting.Sorted.
Import ListNotations.

Open Scope Z_scope.

(** ** JavaScript strings

    A JavaScript string is a sequence of UTF-16 code units.  Literals of the
    source are written with [str], which reads each character of a Rocq string
    as one code unit. *)

Definition codeUnit := N.
Definition jsstring := list codeUnit.

Definition str (s : string) : jsstring :=
  map N_of_ascii (list_ascii_of_string s).

Module JsString.

(** The code units matched by [\s] in a regular expression, which are also
    the ones [String.prototype.trim] strips: WhiteSpace and LineTerminator. *)
Definition isWhiteSpace (c : codeUnit) : bool :=
  ((9 <=? c) && (c <=? 13) || (c =? 32) || (c =? 160) || (c =? 5760)
   || (8192 <=? c) && (c <=? 8202) || (c =? 8232) || (c =? 8233)
   || (c =? 8239) || (c =? 8287) || (c =? 12288) || (c =? 65279))%N.

(** The character class [a-z]. *)
Definition isLowerAZ (c : codeUnit) : bool :=
  ((97 <=? c) && (c <=? 122))%N.

(** [toLowerCase], one code unit at a time.  Three kinds of code unit have a
    lower-case form that contains an ASCII letter: A to Z, the Kelvin sign
    U+212A (to k) and U+0130 (to i followed by U+0307).  Every other
    lower-case mapping stays outside [a-z] and keeps the number of code
    units; those units are left as they are here, since [countSyllables]
    replaces each of them by a space in its next step. *)
Definition lowerUnit (c : codeUnit) : list codeUnit :=
  if ((65 <=? c) && (c <=? 90))%N then [(c + 32)%N]
  else if (c =? 8490)%N then [107%N]
  else if (c =? 304)%N then [105%N; 775%N]
  else [c].

Definition toLowerCase (s : jsstring) : jsstring := flat_map lowerUnit s.

(** [s.replace(/[^a-z]/g, ' ')]: the pattern has no [u] flag, so it is
    applied code unit by code unit. *)
Definition replaceNonLetters (s : jsstring) : jsstring :=
  map (fun c => if isLowerAZ c then c else 32%N) s.

Fixpoint trimStart (s : jsstring) : jsstring :=
  match s with
  | c :: s' => if isWhiteSpace c then trimStart s' else s
  | [] => []
  end.

Definition trimEnd (s : jsstring) : jsstring := rev (trimStart (rev s)).

Definition trim (s : jsstring) : jsstring := trimEnd (trimStart s).

(** [s.split(/\s+/)].  [inSep] tells that the previous code unit was part of
    a separator, so that a run of white space separates once.  A separator at
    the start or at the end of [s] leaves an empty first or last piece, and
    the empty string splits into one empty piece. *)
Fixpoint splitWs (inSep : bool) (s : jsstring) : list jsstring :=
  match s with
  | [] => [[]]
  | c :: s' =>
      if isWhiteSpace c then
        if inSep then splitWs true s' else [] :: splitWs true s'
      else
        match splitWs false s' with
        | w :: ws => (c :: w) :: ws
        | [] => [[c]]
        end
  end.

Definition splitWhitespace (s : jsstring) : list jsstring := splitWs false s.

(** [s.split('\n')], on the line feed (code unit 10). *)
Fixpoint splitLines (s : jsstring) : list jsstring :=
  match s with
  | [] => [[]]
  | c :: s' =>
      if (c =? 10)%N then [] :: splitLines s'
      else
        match splitLines s' with
        | l :: ls => (c :: l) :: ls
        | [] => [[c]]
        end
  end.

(** [s.endsWith(suffix)]. *)
Definition endsWith (s suffix : jsstring) : bool :=
  (length suffix <=? length s)%nat
  && if list_eq_dec N.eq_dec (skipn (length s - length suffix) s) suffix
     then true else false.

(** [s[i]]: the code unit at index [i], or [undefined] ([None]) outside the
    string. *)
Definition charAt (s : jsstring) (i : Z) : option codeUnit :=
  if i <? 0 then None else nth_error s (Z.to_nat i).

(** The template literal [`${n}`] for an integer. *)
Definition ofNumber (n : Z) : jsstring :=
  str (NilZero.string_of_int (Z.to_int n)).

End JsString.

Import JsString.

(** ** Values and completions

    [countSyllables] is declared on strings, but what reaches it at run time is
    a JavaScript value.  A method call on a value that is not a string (no
    [toLowerCase] to call) throws a TypeError. *)

Inductive JsValue : Type :=
| JsUndefined
| JsNull
| JsBoolean (b : bool)
| JsNumber (n : Z)
| JsString (s : jsstring).

Inductive JsError : Type :=
| TypeError (msg : string)
| HostError (msg : string).

Inductive completion (A : Type) : Type :=
| Normal (a : A)
| Throw (e : JsError).

Arguments Normal {A} a.
Arguments Throw {A} e.

Definition callToLowerCase (v : JsValue) : completion jsstring :=
  match v with
  | JsString s => Normal (toLowerCase s)
  | JsUndefined | JsNull => Throw (TypeError "Cannot read properties")
  | JsBoolean _ | JsNumber _ => Throw (TypeError "toLowerCase is not a function")
  end.

(** ** The syllable estimator *)

Module Estimator.

(** [const vowels = 'aeiouy'; vowels.includes(w[i])]; [w[i]] outside the
    word is [undefined], which the six letters do not include. *)
Definition vowels : jsstring := str "aeiouy".

Definition vowelsIncludes (c : option codeUnit) : bool :=
  match c with
  | Some c => existsb (N.eqb c) vowels
  | None => false
  end.

(** The vowel-group loop: [syllables] is incremented at each vowel that does
    not follow a vowel. *)
Fixpoint vowelGroupsFrom (isPrevVowel : bool) (syllables : Z) (w : jsstring) : Z :=
  match w with
  | [] => syllables
  | c :: w' =>
      let isVowel := vowelsIncludes (Some c) in
      vowelGroupsFrom isVowel
        (if isVowel && negb isPrevVowel then syllables + 1 else syllables) w'
  end.

Definition vowelGroups (w : jsstring) : Z := vowelGroupsFrom false 0 w.

(** "Silent e at the end". *)
Definition silentE (w : jsstring) (syllables : Z) : Z :=
  if endsWith w (str "e") && (1 <? syllables) && negb (endsWith w (str "le"))
  then syllables - 1 else syllables.

(** "Words ending with 'le' usually form a syllable". *)
Definition leEnding (w : jsstring) (syllables : Z) : Z :=
  if endsWith w (str "le") && (2 <? length w)%nat
     && negb (vowelsIncludes (charAt w (Z.of_nat (length w) - 3)))
  then syllables + 1 else syllables.

(** "Ensure at least one syllable per word". *)
Definition atLeastOne (syllables : Z) : Z :=
  if syllables =? 0 then 1 else syllables.

(** One turn of the loop over [words]: the new value of [totalSyllables]. *)
Definition countWord (totalSyllables : Z) (w : jsstring) : Z :=
  match w with
  | [] => totalSyllables
  | _ =>
      if (length w =? 1)%nat then totalSyllables + 1
      else totalSyllables + atLeastOne (leEnding w (silentE w (vowelGroups w)))
  end.

(** Step 1 of the [try] block on a string: lower case, every code unit
    outside [a-z] to a space, trim. *)
Definition normalize (word : jsstring) : jsstring :=
  trim (replaceNonLetters (toLowerCase word)).

(** The body of the [try] block. *)
Definition countSyllables_try (word : JsValue) : completion Z :=
  match callToLowerCase word with
  | Throw e => Throw e
  | Normal lowered =>
      let word := trim (replaceNonLetters lowered) in
      match word with
      | [] => Normal 0
      | _ =>
          let words := splitWhitespace word in
          Normal (fold_left countWord words 0)
      end
  end.

(** [countSyllables]: the [catch] clause logs the error and returns 0. *)
Definition countSyllables (word : JsValue) : completion Z :=
  match countSyllables_try word with
  | Normal n => Normal n
  | Throw _ => Normal 0
  end.

(** The spec's [estimate]: the number [countSyllables] returns on a line
    of text. *)
Definition estimate (line : jsstring) : Z :=
  match countSyllables (JsString line) with
  | Normal n => n
  | Throw _ => 0
  end.

End Estimator.

Import Estimator.

(** ** The synchronization pass

    The plugin object is a record of the fields the pass reads and writes.
    A marker is the [div] the pass creates; [markerLine] and [markerCount]
    record the loop index and the count it was built from (the spec's
    annotation carries them; the DOM element only carries the text and the
    offset).  [timers] are the tasks registered with [setTimeout] and not yet
    run.  What [console.error] prints is not part of the model. *)

Record SyllableCounterSettings : Type := {
  maxLinesToProcess : Z;
  updateDebounceInterval : Z;
  onlyVisibleRange : bool;
  showZeroSyllables : bool
}.

Definition DEFAULT_SETTINGS : SyllableCounterSettings :=
  {| maxLinesToProcess := 500;
     updateDebounceInterval := 500;
     onlyVisibleRange := true;
     showZeroSyllables := false |}.

Record Marker : Type := {
  markerLine : Z;
  markerCount : Z;
  className : jsstring;
  textContent : jsstring;
  styleTop : option jsstring
}.

(** The one callback the pass hands to [setTimeout]: ask for a debounced
    update of the active view, when there is one. *)
Inductive TimerCallback : Type :=
| UpdateActiveViewDebounced.

Record Timer : Type := {
  delay : Z;
  callback : TimerCallback
}.

Record Plugin : Type := {
  settings : SyllableCounterSettings;
  syllableMarkers : list Marker;
  isProcessing : bool;
  pendingUpdate : bool;
  timers : list Timer
}.

Definition set_syllableMarkers (ms : list Marker) (this : Plugin) : Plugin :=
  {| settings := settings this; syllableMarkers := ms;
     isProcessing := isProcessing this; pendingUpdate := pendingUpdate this;
     timers := timers this |}.

Definition set_isProcessing (b : bool) (this : Plugin) : Plugin :=
  {| settings := settings this; syllableMarkers := syllableMarkers this;
     isProcessing := b; pendingUpdate := pendingUpdate this;
     timers := timers this |}.

Definition set_pendingUpdate (b : bool) (this : Plugin) : Plugin :=
  {| settings := settings this; syllableMarkers := syllableMarkers this;
     isProcessing := isProcessing this; pendingUpdate := b;
     timers := timers this |}.

Definition setTimeout (cb : TimerCallback) (ms : Z) (this : Plugin) : Plugin :=
  {| settings := settings this; syllableMarkers := syllableMarkers this;
     isProcessing := isProcessing this; pendingUpdate := pendingUpdate this;
     timers := timers this ++ [{| delay := ms; callback := cb |}] |}.

(** *** The host: editor, rendered lines, and calls that may throw *)

Record Rect : Type := { top : Z; bottom : Z }.

Record LineElement : Type := {
  offsetTop : option Z;
  lineRect : Rect
}.

(** The [.cm-editor] element: its bounding rectangle and its [.cm-line]
    descendants, in document order. *)
Record EditorElement : Type := {
  editorRect : Rect;
  cmLines : list LineElement
}.

Record Editor : Type := { getValue : jsstring }.

Record MarkdownView : Type := {
  editor : option Editor;
  cmEditor : option EditorElement
}.

(** The calls into the host that the pass makes inside its [try] block. *)
Inductive HostCall : Type :=
| QuerySelector
| QuerySelectorAll
| GetVisibleLineRange
| CreateDocumentFragment
| GetValue
| CreateElement (index : Z)
| FragmentAppendChild (index : Z)
| EditorAppendChild.

(** [throwsAt c] is the exception the host raises at call [c], if any. *)
Record Host : Type := { throwsAt : HostCall -> option JsError }.

Definition quietHost : Host := {| throwsAt := fun _ => None |}.

Module Synchronizer.

(** [clearSyllableMarkers] empties the list; taking each marker out of the
    document is left to the host. *)
Definition clearSyllableMarkers (this : Plugin) : Plugin :=
  set_syllableMarkers [] this.

(** The loop of [getVisibleLineRange] from index [i] on; it stops at the
    first line below the editor once a visible line has been seen. *)
Fixpoint visibleScan (editorRect : Rect) (i startLine endLine : Z)
         (lineElements : list LineElement) : Z * Z :=
  match lineElements with
  | [] => (startLine, endLine)
  | el :: rest =>
      let lineRect := lineRect el in
      let isVisible :=
        (top editorRect - 100 <=? bottom lineRect)
        && (top lineRect <=? bottom editorRect + 100) in
      if isVisible then
        visibleScan editorRect (i + 1)
          (if startLine =? -1 then i else startLine) i rest
      else if negb (startLine =? -1) && (bottom editorRect <? top lineRect)
      then (startLine, endLine)
      else visibleScan editorRect (i + 1) startLine endLine rest
  end.

Definition getVisibleLineRange (editorElement : EditorElement) : option (Z * Z) :=
  let lineElements := cmLines editorElement in
  match lineElements with
  | [] => None
  | _ =>
      let '(startLine, endLine) :=
        visibleScan (editorRect editorElement) 0 (-1) (-1) lineElements in
      if startLine =? -1 then None
      else Some (Z.max 0 (startLine - 10),
                 Z.min (Z.of_nat (length lineElements) - 1) (endLine + 10))
  end.

(** "Determine which lines to process": [(startLine, endLine)]. *)
Definition candidateRange (st : SyllableCounterSettings)
           (editorElement : EditorElement) : Z * Z :=
  let lineElements := cmLines editorElement in
  let startLine := 0 in
  let endLine :=
    Z.min (Z.of_nat (length lineElements) - 1) (maxLinesToProcess st - 1) in
  if onlyVisibleRange st then
    match getVisibleLineRange editorElement with
    | Some (startLine, endLine) =>
        if maxLinesToProcess st <? endLine - startLine + 1
        then (startLine, startLine + maxLinesToProcess st - 1)
        else (startLine, endLine)
    | None => (startLine, endLine)
    end
  else (startLine, endLine).

(** [xs[index]] as a JavaScript array access. *)
Definition at_ {A : Type} (xs : list A) (index : Z) : option A :=
  if index <? 0 then None else nth_error xs (Z.to_nat index).

Definition markerText (syllableCount : Z) : jsstring :=
  ofNumber syllableCount ++ str " "
    ++ (if syllableCount =? 1 then str "syllable" else str "syllables").

Definition newMarker (index syllableCount : Z) (lineElement : LineElement) : Marker :=
  {| markerLine := index;
     markerCount := syllableCount;
     className := str "syllable-marker";
     textContent := markerText syllableCount;
     styleTop := match offsetTop lineElement with
                 | Some t => Some (ofNumber t ++ str "px")
                 | None => None
                 end |}.

(** The loop "for (let index = startLine; index <= endLine; index++)" with
    [count] turns left, over the markers pushed so far. *)
Fixpoint markLines (host : Host) (showZero : bool) (lines : list jsstring)
         (lineElements : list LineElement) (index : Z) (count : nat)
         (markers : list Marker) : completion unit * list Marker :=
  match count with
  | O => (Normal tt, markers)
  | S count' =>
      let continue_ := markLines host showZero lines lineElements (index + 1) count' in
      if (Z.of_nat (length lines) <=? index)
         || (Z.of_nat (length lineElements) <=? index)
      then continue_ markers
      else
        let line := match at_ lines index with
                    | Some l => JsString l
                    | None => JsUndefined
                    end in
        match countSyllables line with
        | Throw e => (Throw e, markers)
        | Normal syllableCount =>
            if (0 <? syllableCount) || showZero then
              match at_ lineElements index with
              | None => continue_ markers
              | Some lineElement =>
                  match throwsAt host (CreateElement index) with
                  | Some e => (Throw e, markers)
                  | None =>
                      let marker := newMarker index syllableCount lineElement in
                      match throwsAt host (FragmentAppendChild index) with
                      | Some e => (Throw e, markers)
                      | None => continue_ (markers ++ [marker])
                      end
                  end
              end
            else continue_ markers
        end
  end.

(** The [try] block of [updateSyllableCounts].  It ends normally (also at
    each early [return]) or with the exception a host call threw; the
    markers pushed before an exception stay in [syllableMarkers]. *)
Definition pass_try (host : Host) (view : MarkdownView) (this : Plugin)
  : completion unit * Plugin :=
  let this := clearSyllableMarkers this in
  match editor view with
  | None => (Normal tt, set_isProcessing false this)
  | Some editor =>
  match throwsAt host QuerySelector with
  | Some e => (Throw e, this)
  | None =>
  match cmEditor view with
  | None => (Normal tt, set_isProcessing false this)
  | Some editorElement =>
  match throwsAt host QuerySelectorAll with
  | Some e => (Throw e, this)
  | None =>
  let lineElements := cmLines editorElement in
  if (length lineElements =? 0)%nat then (Normal tt, set_isProcessing false this)
  else
  match (if onlyVisibleRange (settings this)
         then throwsAt host GetVisibleLineRange else None) with
  | Some e => (Throw e, this)
  | None =>
  let '(startLine, endLine) := candidateRange (settings this) editorElement in
  match throwsAt host CreateDocumentFragment with
  | Some e => (Throw e, this)
  | None =>
  match throwsAt host GetValue with
  | Some e => (Throw e, this)
  | None =>
  let content := getValue editor in
  let lines := splitLines content in
  let '(r, markers) :=
    markLines host (showZeroSyllables (settings this)) lines lineElements
      startLine (Z.to_nat (endLine - startLine + 1)) (syllableMarkers this) in
  let this := set_syllableMarkers markers this in
  match r with
  | Throw e => (Throw e, this)
  | Normal _ =>
  match throwsAt host EditorAppendChild with
  | Some e => (Throw e, this)
  | None => (Normal tt, this)
  end end end end end end end end end.

(** Before the [try]: take the flag and forget earlier requests. *)
Definition pass_enter (this : Plugin) : Plugin :=
  set_pendingUpdate false (set_isProcessing true this).

(** The [finally] block. *)
Definition pass_finally (this : Plugin) : Plugin :=
  let this := set_isProcessing false this in
  if pendingUpdate this then setTimeout UpdateActiveViewDebounced 50 this
  else this.

(** [updateSyllableCounts].  The [catch] clause only logs, so the plugin
    leaves it as the [try] block left it. *)
Definition updateSyllableCounts (host : Host) (view : MarkdownView)
           (this : Plugin) : Plugin :=
  if isProcessing this then set_pendingUpdate true this
  else pass_finally (snd (pass_try host view (pass_enter this))).

(** [n] further invocations of [updateSyllableCounts], one after the
    other. *)
Fixpoint triggers (host : Host) (view : MarkdownView) (n : nat)
         (this : Plugin) : Plugin :=
  match n with
  | O => this
  | S n' => triggers host view n' (updateSyllableCounts host view this)
  end.

(** A pass during which [n] other invocations arrive, once the flag is
    taken.  The [try] block neither reads nor writes [pendingUpdate], so
    they are placed ahead of it. *)
Definition passWithTriggers (host : Host) (view : MarkdownView) (n : nat)
           (this : Plugin) : Plugin :=
  pass_finally
    (snd (pass_try host view (triggers host view n (pass_enter this)))).

End Synchronizer.

Import Synchronizer.

Definition freshPlugin (st : SyllableCounterSettings) : Plugin :=
  {| settings := st; syllableMarkers := []; isProcessing := false;
     pendingUpdate := false; timers := [] |}.

Definition plainLine (offset : Z) : LineElement :=
  {| offsetTop := Some offset;
     lineRect := {| top := offset; bottom := offset + 20 |} |}.

Definition viewOf (content : string) (lineElements : list LineElement) : MarkdownView :=
  {| editor := Some {| getValue := str content |};
     cmEditor := Some {| editorRect := {| top := 0; bottom := 600 |};
                         cmLines := lineElements |} |}.

(** ** Notions used to state the properties *)

(** [wordsIn ps] keeps the non-empty pieces: the ones the loop of
    [countSyllables] does not skip with "if (!w) continue". *)
Definition nonEmpty (w : jsstring) : bool :=
  match w with [] => false | _ => true end.

Definition wordsIn (pieces : list jsstring) : list jsstring :=
  filter nonEmpty pieces.

(** The words of a line: what the loop of [countSyllables] adds up. *)
Definition wordsOf (line : jsstring) : list jsstring :=
  wordsIn (splitWhitespace (replaceNonLetters (toLowerCase line))).

(** A marker sits on a line of positive estimate. *)
Definition positiveAt (lines : list jsstring) (m : Marker) : Prop :=
  forall line, at_ lines (markerLine m) = Some line -> 0 < estimate line.

Definition neverThrows (host : Host) : Prop :=
  forall c, throwsAt host c = None.

(** Line feed, to write the text of a document. *)
Definition LF : jsstring := [10%N].

(** The test [isVisible] of [getVisibleLineRange]: the line's rectangle
    comes within 100 units of the editor's. *)
Definition lineIsVisible (editorRect : Rect) (el : LineElement) : bool :=
  (top editorRect - 100 <=? bottom (lineRect el))
  && (top (lineRect el) <=? bottom editorRect + 100).

Definition visibleAt (editorRect : Rect) (els : list LineElement) (j : Z) : Prop :=
  exists el, at_ els j = Some el /\ lineIsVisible editorRect el = true.

Definition noneVisible (editorRect : Rect) (els : list LineElement) : Prop :=
  Forall (fun el => lineIsVisible editorRect el = false) els.

(** [first] is the first visible line and [last] a visible line after it. *)
Definition VisibleSpan (editorRect : Rect) (els : list LineElement)
           (first last : Z) : Prop :=
  0 <= first <= last /\ last < Z.of_nat (length els)
  /\ visibleAt editorRect els first /\ visibleAt editorRect els last
  /\ (forall j el, 0 <= j < first -> at_ els j = Some el ->
                   lineIsVisible editorRect el = false).

(** Rectangles with the top above the bottom, and lines laid out from top to
    bottom. *)
Definition rectOk (r : Rect) : Prop := top r <= bottom r.

Definition topToBottom (els : list LineElement) : Prop :=
  Forall (fun el => rectOk (lineRect el)) els
  /\ StronglySorted (fun a b => top (lineRect a) <= top (lineRect b)) els.

(** A marker built by the loop from the line and the line element at its
    index. *)
Definition faithful (showZero : bool) (lines : list jsstring)
           (lineElements : list LineElement) (m : Marker) : Prop :=
  exists line el,
    at_ lines (markerLine m) = Some line
    /\ at_ lineElements (markerLine m) = Some el
    /\ m = newMarker (markerLine m) (estimate line) el
    /\ (0 < estimate line \/ showZero = true).

(** Invocations of [updateSyllableCounts] one after the other, each with the
    host and the view of its time. *)
Fixpoint runs (steps : list (Host * MarkdownView)) (this : Plugin) : Plugin :=
  match steps with
  | [] => this
  | (host, view) :: rest => runs rest (updateSyllableCounts host view this)
  end.

(** A code unit whose lower-case form holds a letter of [a-z]: the units
    that end up inside a word. *)
Definition becomesLetter (c : codeUnit) : bool :=
  existsb isLowerAZ (lowerUnit c).

(** The letters of a line, as [countSyllables] sees them. *)
Definition lettersOf (line : jsstring) : jsstring :=
  filter isLowerAZ (toLowerCase line).

(** The post-adjustments of a token as section 4.1 of the specification words
    them, to be compared with [countWord]. *)
Module Spec.

Definition isVowel (c : codeUnit) : bool :=
  ((c =? 97) || (c =? 101) || (c =? 105) || (c =? 111) || (c =? 117)
   || (c =? 121))%N.

(** "the token ends in e" *)
Definition endsInE (w : jsstring) : bool :=
  match rev w with
  | e :: _ => (e =? 101)%N
  | [] => false
  end.

(** "the token ends in le" *)
Definition endsInLE (w : jsstring) : bool :=
  match rev w with
  | e :: l :: _ => (l =? 108)%N && (e =? 101)%N
  | _ => false
  end.

(** "the character three positions from the end" *)
Definition thirdFromEnd (w : jsstring) : option codeUnit :=
  match rev w with
  | _ :: _ :: c :: _ => Some c
  | _ => None
  end.

(** Adjustment a, the silent-e heuristic. *)
Definition adjustSilentE (w : jsstring) (count : Z) : Z :=
  if endsInE w && (1 <? count) && negb (endsInLE w) then count - 1 else count.

(** Adjustment b, consonant+le. *)
Definition adjustLe (w : jsstring) (count : Z) : Z :=
  if endsInLE w && (2 <? length w)%nat
     && match thirdFromEnd w with
        | Some c => negb (isVowel c)
        | None => false
        end
  then count + 1 else count.

(** Vowel groups, then a, then b, then the floor at 1. *)
Definition tokenCount (w : jsstring) : Z :=
  Z.max 1 (adjustLe w (adjustSilentE w (vowelGroups w))).

(** The display text of section 6, with the verbosity option. *)
Inductive Verbosity : Type := Verbose | Terse.

Definition displayText (v : Verbosity) (count : Z) : jsstring :=
  match v with
  | Verbose =>
      ofNumber count ++ str " "
        ++ (if count =? 1 then str "syllable" else str "syllables")
  | Terse => ofNumber count
  end.

End Spec.

(** * Properties *)

(** ** Sanity checks of the embedding *)

Example countSyllables_hello_world :
  countSyllables (JsString (str "  Hello, World!  ")) = Normal 3.
Proof. reflexivity. Qed.

Example countSyllables_undefined : countSyllables JsUndefined = Normal 0.
Proof. reflexivity. Qed.

Example split_pieces :
  splitWhitespace (str " a  b ") = [str ""; str "a"; str "b"; str ""].
Proof. reflexivity. Qed.

(** ** The estimator on strings *)

Lemma countSyllables_string (s : jsstring) :
  countSyllables (JsString s) = Normal (estimate s).
Proof.
  unfold estimate, countSyllables, countSyllables_try; simpl.
  destruct (trim (replaceNonLetters (toLowerCase s))); reflexivity.
Qed.

Lemma estimate_unfold (s : jsstring) :
  estimate s = match normalize s with
               | [] => 0
               | word => fold_left countWord (splitWhitespace word) 0
               end.
Proof.
  unfold estimate, countSyllables, countSyllables_try, normalize; simpl.
  destruct (trim (replaceNonLetters (toLowerCase s))); reflexivity.
Qed.

(** *** The per-word count *)

Lemma vowelGroupsFrom_ge (w : jsstring) :
  forall p n, n <= vowelGroupsFrom p n w.
Proof.
  induction w as [|c w IH]; intros p n; cbn [vowelGroupsFrom]; [lia|].
  destruct (vowelsIncludes (Some c) && negb p).
  - specialize (IH (vowelsIncludes (Some c)) (n + 1)). lia.
  - apply IH.
Qed.

Lemma vowelGroups_nonneg (w : jsstring) : 0 <= vowelGroups w.
Proof. apply vowelGroupsFrom_ge. Qed.

Lemma silentE_bounds (w : jsstring) (n : Z) :
  0 <= n -> 0 <= silentE w n <= n.
Proof.
  intros Hn. unfold silentE.
  destruct (endsWith w (str "e")); simpl; [|lia].
  destruct (1 <? n) eqn:E; simpl; [|lia].
  apply Z.ltb_lt in E.
  destruct (endsWith w (str "le")); simpl; lia.
Qed.

Lemma leEnding_bounds (w : jsstring) (n : Z) : n <= leEnding w n <= n + 1.
Proof.
  unfold leEnding.
  destruct (endsWith w (str "le") && (2 <? length w)%nat
            && negb (vowelsIncludes (charAt w (Z.of_nat (length w) - 3)))); lia.
Qed.

Lemma atLeastOne_max (n : Z) : 0 <= n -> atLeastOne n = Z.max 1 n.
Proof.
  intros Hn. unfold atLeastOne. destruct (n =? 0) eqn:E.
  - apply Z.eqb_eq in E. lia.
  - apply Z.eqb_neq in E. lia.
Qed.

(** The loop adds the word's own count to the running total. *)
Lemma countWord_shift (t : Z) (w : jsstring) :
  countWord t w = t + countWord 0 w.
Proof.
  destruct w as [|c w]; [simpl; lia|].
  unfold countWord.
  destruct (length (c :: w) =? 1)%nat; lia.
Qed.

Lemma countWord_nonempty_ge (t : Z) (w : jsstring) :
  w <> [] -> t + 1 <= countWord t w.
Proof.
  intros Hw. unfold countWord. destruct w as [|c w]; [congruence|].
  destruct (length (c :: w) =? 1)%nat; [lia|].
  set (v := vowelGroups (c :: w)).
  assert (Hv : 0 <= v) by apply vowelGroups_nonneg.
  pose proof (silentE_bounds (c :: w) v Hv) as Hs.
  pose proof (leEnding_bounds (c :: w) (silentE (c :: w) v)) as Hl.
  rewrite atLeastOne_max by lia. lia.
Qed.

Lemma countWord_ge (t : Z) (w : jsstring) : t <= countWord t w.
Proof.
  destruct w as [|c w]; [simpl; lia|].
  assert (H : c :: w <> []) by discriminate.
  apply (countWord_nonempty_ge t) in H. lia.
Qed.

Lemma fold_countWord_ge (ws : list jsstring) :
  forall t, t <= fold_left countWord ws t.
Proof.
  induction ws as [|w ws IH]; intros t; cbn [fold_left]; [lia|].
  specialize (IH (countWord t w)). pose proof (countWord_ge t w). lia.
Qed.

Lemma fold_countWord_shift (ws : list jsstring) :
  forall t, fold_left countWord ws t = t + fold_left countWord ws 0.
Proof.
  induction ws as [|w ws IH]; intros t; cbn [fold_left]; [lia|].
  rewrite (IH (countWord t w)), (IH (countWord 0 w)), (countWord_shift t w). lia.
Qed.

Lemma fold_countWord_app (xs ys : list jsstring) :
  fold_left countWord (xs ++ ys) 0
  = fold_left countWord xs 0 + fold_left countWord ys 0.
Proof. rewrite fold_left_app. apply fold_countWord_shift. Qed.

(** *** Pieces of a split *)

Lemma fold_countWord_wordsIn (ps : list jsstring) :
  forall t, fold_left countWord (wordsIn ps) t = fold_left countWord ps t.
Proof.
  induction ps as [|p ps IH]; intros t; [reflexivity|].
  destruct p as [|c p]; cbn [wordsIn filter nonEmpty fold_left].
  - apply IH.
  - apply IH.
Qed.

Lemma splitWs_not_nil (b : bool) (s : jsstring) : splitWs b s <> [].
Proof.
  revert b. induction s as [|c s IH]; intros b; cbn [splitWs]; [discriminate|].
  destruct (isWhiteSpace c).
  - destruct b; [apply IH | discriminate].
  - destruct (splitWs false s); discriminate.
Qed.

Lemma splitWs_hd_tl (b : bool) (s : jsstring) :
  splitWs b s = hd [] (splitWs b s) :: tl (splitWs b s).
Proof.
  pose proof (splitWs_not_nil b s) as H.
  destruct (splitWs b s); [congruence | reflexivity].
Qed.

Lemma splitWs_letter (b : bool) (c : codeUnit) (s : jsstring) :
  isWhiteSpace c = false ->
  splitWs b (c :: s) = (c :: hd [] (splitWs false s)) :: tl (splitWs false s).
Proof.
  intros Hc. cbn [splitWs]. rewrite Hc.
  rewrite (splitWs_hd_tl false s) at 1. reflexivity.
Qed.

(** The flag only decides whether a leading separator leaves an empty piece. *)
Lemma wordsIn_splitWs_flag (b : bool) (s : jsstring) :
  wordsIn (splitWs b s) = wordsIn (splitWs false s).
Proof.
  destruct b; [|reflexivity].
  destruct s as [|c s]; [reflexivity|].
  cbn [splitWs]. destruct (isWhiteSpace c); reflexivity.
Qed.

Lemma wordsIn_splitWs_space (b : bool) (c : codeUnit) (s : jsstring) :
  isWhiteSpace c = true ->
  wordsIn (splitWs b (c :: s)) = wordsIn (splitWs false s).
Proof.
  intros Hc. cbn [splitWs]. rewrite Hc.
  destruct b; cbn [wordsIn filter nonEmpty]; apply (wordsIn_splitWs_flag true).
Qed.

(** Splitting on both sides of a separator. *)
Lemma splitWs_app_sep (c : codeUnit) (y : jsstring) :
  isWhiteSpace c = true ->
  forall x,
    hd [] (splitWs false (x ++ c :: y)) = hd [] (splitWs false x)
    /\ wordsIn (tl (splitWs false (x ++ c :: y)))
       = wordsIn (tl (splitWs false x)) ++ wordsIn (splitWs false y).
Proof.
  intros Hc. induction x as [|a x [IHh IHt]].
  - cbn [app splitWs]. rewrite Hc. cbn [hd tl wordsIn filter app].
    split; [reflexivity | apply (wordsIn_splitWs_flag true)].
  - cbn [app]. destruct (isWhiteSpace a) eqn:Ha.
    + cbn [splitWs]. rewrite Ha. cbn [hd tl]. split; [reflexivity|].
      rewrite !(wordsIn_splitWs_flag true).
      rewrite (splitWs_hd_tl false (x ++ c :: y)), (splitWs_hd_tl false x).
      unfold wordsIn in *. cbn [filter]. rewrite IHh.
      destruct (nonEmpty (hd [] (splitWs false x))); cbn [app]; rewrite IHt;
        reflexivity.
    + rewrite !(splitWs_letter false a) by assumption. cbn [hd tl].
      split; [rewrite IHh; reflexivity | exact IHt].
Qed.

Lemma wordsIn_split_app_sep (c : codeUnit) (x y : jsstring) :
  isWhiteSpace c = true ->
  wordsIn (splitWs false (x ++ c :: y))
  = wordsIn (splitWs false x) ++ wordsIn (splitWs false y).
Proof.
  intros Hc. destruct (splitWs_app_sep c y Hc x) as [Hh Ht].
  rewrite (splitWs_hd_tl false (x ++ c :: y)), (splitWs_hd_tl false x).
  unfold wordsIn in *. cbn [filter]. rewrite Hh.
  destruct (nonEmpty (hd [] (splitWs false x))); cbn [app]; rewrite Ht;
    reflexivity.
Qed.

Lemma wordsIn_split_spaces (t : jsstring) :
  forallb isWhiteSpace t = true -> wordsIn (splitWs false t) = [].
Proof.
  induction t as [|c t IH]; intros H; [reflexivity|].
  cbn [forallb] in H. apply andb_prop in H. destruct H as [Hc Ht].
  rewrite (wordsIn_splitWs_space false c t Hc). apply IH, Ht.
Qed.

Lemma wordsIn_split_app_spaces (x t : jsstring) :
  forallb isWhiteSpace t = true ->
  wordsIn (splitWs false (x ++ t)) = wordsIn (splitWs false x).
Proof.
  destruct t as [|c t]; intros H.
  - rewrite app_nil_r. reflexivity.
  - cbn [forallb] in H. apply andb_prop in H. destruct H as [Hc Ht].
    rewrite (wordsIn_split_app_sep c x t Hc), (wordsIn_split_spaces t Ht).
    apply app_nil_r.
Qed.

(** *** Trimming does not change the words *)

Lemma trimStart_split (s : jsstring) :
  exists t, s = t ++ trimStart s /\ forallb isWhiteSpace t = true.
Proof.
  induction s as [|c s (t & Hs & Ht)].
  - exists []. split; reflexivity.
  - cbn [trimStart]. destruct (isWhiteSpace c) eqn:Hc.
    + exists (c :: t). cbn [app forallb]. rewrite Hc, Ht. split; [|reflexivity].
      f_equal. exact Hs.
    + exists []. split; reflexivity.
Qed.

Lemma trimEnd_split (s : jsstring) :
  exists t, s = trimEnd s ++ t /\ forallb isWhiteSpace t = true.
Proof.
  destruct (trimStart_split (rev s)) as (t & Hs & Ht).
  exists (rev t). split.
  - unfold trimEnd. rewrite <- rev_app_distr, <- Hs, rev_involutive. reflexivity.
  - rewrite forallb_forall in *. intros c Hin. apply Ht, in_rev, Hin.
Qed.

Lemma wordsIn_split_trimStart (s : jsstring) :
  wordsIn (splitWs false (trimStart s)) = wordsIn (splitWs false s).
Proof.
  induction s as [|c s IH]; [reflexivity|].
  cbn [trimStart]. destruct (isWhiteSpace c) eqn:Hc; [|reflexivity].
  rewrite (wordsIn_splitWs_space false c s Hc). exact IH.
Qed.

Lemma wordsIn_split_trimEnd (s : jsstring) :
  wordsIn (splitWs false (trimEnd s)) = wordsIn (splitWs false s).
Proof.
  destruct (trimEnd_split s) as (t & Hs & Ht).
  rewrite Hs at 2. symmetry. apply wordsIn_split_app_spaces, Ht.
Qed.

Lemma wordsIn_split_trim (s : jsstring) :
  wordsIn (splitWhitespace (trim s)) = wordsIn (splitWhitespace s).
Proof.
  unfold splitWhitespace, trim.
  rewrite wordsIn_split_trimEnd. apply wordsIn_split_trimStart.
Qed.

Lemma estimate_wordsOf (s : jsstring) :
  estimate s = fold_left countWord (wordsOf s) 0.
Proof.
  rewrite estimate_unfold. unfold wordsOf, normalize.
  rewrite <- wordsIn_split_trim, fold_countWord_wordsIn.
  destruct (trim (replaceNonLetters (toLowerCase s))); reflexivity.
Qed.

(** *** Normalization of white space and of a joined line *)

Ltac bool_to_prop H :=
  repeat first
    [ rewrite orb_true_iff in H | rewrite andb_true_iff in H
    | rewrite N.leb_le in H | rewrite N.eqb_eq in H ].

Lemma lowerUnit_whitespace (c : codeUnit) :
  isWhiteSpace c = true -> lowerUnit c = [c] /\ isLowerAZ c = false.
Proof.
  intros H. unfold isWhiteSpace in H. bool_to_prop H.
  unfold lowerUnit, isLowerAZ.
  destruct (N.leb_spec 65 c), (N.leb_spec c 90), (N.eqb_spec c 8490),
    (N.eqb_spec c 304), (N.leb_spec 97 c), (N.leb_spec c 122);
    cbn [andb]; (split; [reflexivity || lia | reflexivity || lia]).
Qed.

Lemma normalized_whitespace (s : jsstring) :
  forallb isWhiteSpace s = true ->
  forallb isWhiteSpace (replaceNonLetters (toLowerCase s)) = true.
Proof.
  induction s as [|c s IH]; intros H; [reflexivity|].
  cbn [forallb] in H. apply andb_prop in H. destruct H as [Hc Hs].
  destruct (lowerUnit_whitespace c Hc) as [Hl Hz].
  unfold toLowerCase, replaceNonLetters in *. cbn [flat_map].
  rewrite Hl. cbn [app map forallb]. rewrite Hz, (IH Hs). reflexivity.
Qed.

Lemma normalized_join (a b : jsstring) :
  replaceNonLetters (toLowerCase (a ++ str " " ++ b))
  = replaceNonLetters (toLowerCase a) ++ 32%N :: replaceNonLetters (toLowerCase b).
Proof.
  unfold toLowerCase, replaceNonLetters.
  rewrite flat_map_app, map_app. reflexivity.
Qed.

(** *** [endsWith] and indexing from the end, through the reversed word *)

Lemma endsWith_app (p suf suf' : jsstring) :
  length suf = length suf' ->
  endsWith (p ++ suf) suf'
  = if list_eq_dec N.eq_dec suf suf' then true else false.
Proof.
  intros Hlen. unfold endsWith. rewrite length_app, <- Hlen.
  replace (length p + length suf - length suf)%nat with (length p) by lia.
  rewrite skipn_app, skipn_all, Nat.sub_diag. cbn [skipn app].
  replace (length suf <=? length p + length suf)%nat with true
    by (symmetry; apply Nat.leb_le; lia).
  reflexivity.
Qed.

Lemma endsWith_short (w suf : jsstring) :
  (length w < length suf)%nat -> endsWith w suf = false.
Proof.
  intros H. unfold endsWith.
  replace (length suf <=? length w)%nat with false
    by (symmetry; apply Nat.leb_gt; lia).
  reflexivity.
Qed.

Lemma spec_isVowel (c : codeUnit) : vowelsIncludes (Some c) = Spec.isVowel c.
Proof.
  unfold vowelsIncludes, Spec.isVowel, vowels. cbn [str list_ascii_of_string map existsb].
  change (N_of_ascii "a") with 97%N. change (N_of_ascii "e") with 101%N.
  change (N_of_ascii "i") with 105%N. change (N_of_ascii "o") with 111%N.
  change (N_of_ascii "u") with 117%N. change (N_of_ascii "y") with 121%N.
  rewrite orb_false_r, !orb_assoc. reflexivity.
Qed.

Lemma rev_eq_inv (w r : jsstring) : rev w = r -> w = rev r.
Proof. intros <-. symmetry. apply rev_involutive. Qed.

Lemma spec_endsInE (w : jsstring) : endsWith w (str "e") = Spec.endsInE w.
Proof.
  unfold Spec.endsInE. destruct (rev w) as [|e r] eqn:E; apply rev_eq_inv in E;
    subst w; [reflexivity|].
  cbn [rev]. rewrite (endsWith_app (rev r) [e] (str "e")) by reflexivity.
  change (str "e") with [101%N].
  destruct (list_eq_dec N.eq_dec [e] [101%N]) as [H|H].
  - injection H as ->. reflexivity.
  - symmetry. apply N.eqb_neq. intros ->. apply H. reflexivity.
Qed.

Lemma spec_endsInLE (w : jsstring) : endsWith w (str "le") = Spec.endsInLE w.
Proof.
  unfold Spec.endsInLE.
  destruct (rev w) as [|e [|l r]] eqn:E; apply rev_eq_inv in E; subst w;
    [reflexivity | reflexivity |].
  cbn [rev]. rewrite <- app_assoc. cbn [app].
  rewrite (endsWith_app (rev r) [l; e] (str "le")) by reflexivity.
  change (str "le") with [108%N; 101%N].
  destruct (list_eq_dec N.eq_dec [l; e] [108%N; 101%N]) as [H|H].
  - injection H as -> ->. reflexivity.
  - symmetry. apply andb_false_iff.
    destruct (N.eqb_spec l 108) as [->|Hl]; [|left; reflexivity].
    destruct (N.eqb_spec e 101) as [->|He]; [|right; reflexivity].
    exfalso. apply H. reflexivity.
Qed.

Lemma spec_thirdFromEnd (w : jsstring) :
  (2 < length w)%nat ->
  charAt w (Z.of_nat (length w) - 3) = Spec.thirdFromEnd w.
Proof.
  intros Hlen. unfold Spec.thirdFromEnd, charAt.
  destruct (Z.ltb_spec (Z.of_nat (length w) - 3) 0) as [H|_]; [lia|].
  destruct (rev w) as [|e [|l [|c r]]] eqn:E; apply rev_eq_inv in E; subst w;
    cbn [rev app length] in Hlen; try lia.
  cbn [rev]. rewrite <- !app_assoc. cbn [app].
  rewrite length_app. cbn [length].
  replace (Z.to_nat (Z.of_nat (length (rev r) + 3) - 3)) with (length (rev r))
    by lia.
  rewrite nth_error_app2 by lia. rewrite Nat.sub_diag. reflexivity.
Qed.

(** ** Claims about the estimator *)

(** C3: for a token of length at least 2, the loop adds to the running total
    the number of vowel groups, adjusted first by the silent-e rule (ends in
    e, count above 1, does not end in le: minus 1), then by the le rule (ends
    in le, longer than 2, third character from the end not a vowel: plus 1),
    then floored at 1. *)
Theorem countWord_two_adjustments (total : Z) (w : jsstring) :
  (2 <= length w)%nat -> countWord total w = total + Spec.tokenCount w.
Proof.
  intros Hlen. unfold countWord, Spec.tokenCount.
  destruct w as [|c w]; [cbn [length] in Hlen; lia|].
  destruct (Nat.eqb_spec (length (c :: w)) 1) as [H1|_]; [lia|].
  set (v := vowelGroups (c :: w)). f_equal.
  assert (Hv : 0 <= v) by apply vowelGroups_nonneg.
  assert (Ha : silentE (c :: w) v = Spec.adjustSilentE (c :: w) v).
  { unfold silentE, Spec.adjustSilentE.
    rewrite spec_endsInE, spec_endsInLE. reflexivity. }
  assert (Hb : forall n, leEnding (c :: w) n = Spec.adjustLe (c :: w) n).
  { intros n. unfold leEnding, Spec.adjustLe. rewrite spec_endsInLE.
    destruct (Spec.endsInLE (c :: w)); [|reflexivity].
    destruct (Nat.ltb_spec 2 (length (c :: w))) as [H2|H2]; [|reflexivity].
    rewrite (spec_thirdFromEnd (c :: w) H2).
    unfold Spec.thirdFromEnd in *.
    destruct (rev (c :: w)) as [|x [|y [|z r]]] eqn:E;
      apply rev_eq_inv in E; rewrite E in H2; cbn [rev app length] in H2;
      try lia.
    rewrite spec_isVowel. reflexivity. }
  rewrite Hb, <- Ha.
  pose proof (silentE_bounds (c :: w) v Hv).
  pose proof (leEnding_bounds (c :: w) (silentE (c :: w) v)).
  rewrite <- Hb. apply atLeastOne_max. lia.
Qed.

Lemma countWord_two_adjustments_witness :
  (2 <= length (str "table"))%nat
  /\ countWord 0 (str "table") = 0 + Spec.tokenCount (str "table").
Proof.
  split; [vm_compute; lia | apply (countWord_two_adjustments 0 (str "table"))].
  vm_compute. lia.
Defined.

(** C1, as the code has it: the estimates of cat, banana, the and a are 1, 3,
    1 and 1, and the estimate of apple is 3: two vowel groups, no silent-e
    decrement because the word ends in le, then the le increment. *)
Theorem estimate_examples :
  estimate (str "cat") = 1
  /\ estimate (str "banana") = 3
  /\ estimate (str "apple") = 3
  /\ estimate (str "the") = 1
  /\ estimate (str "a") = 1.
Proof. repeat split; reflexivity. Qed.

(** C1 as stated fails at apple: the estimate is not 2. *)
Lemma estimate_apple_is_not_2 : estimate (str "apple") <> 2.
Proof. vm_compute. discriminate. Qed.

(** C2: an estimate is never negative; the empty line and every line of white
    space only have estimate 0; and each non-empty token adds at least 1 to
    the running total, so the estimate is at least the number of words. *)
Theorem estimate_nonneg_and_words_count :
  (forall s, 0 <= estimate s)
  /\ estimate [] = 0
  /\ (forall s, forallb isWhiteSpace s = true -> estimate s = 0)
  /\ (forall total w, w <> [] -> total + 1 <= countWord total w)
  /\ (forall s, estimate s = fold_left countWord (wordsOf s) 0
                /\ Forall (fun w => w <> []) (wordsOf s)).
Proof.
  repeat split.
  - intros s. rewrite estimate_wordsOf. apply fold_countWord_ge.
  - intros s H. rewrite estimate_wordsOf. unfold wordsOf, splitWhitespace.
    rewrite (wordsIn_split_spaces _ (normalized_whitespace s H)). reflexivity.
  - intros total w Hw. apply countWord_nonempty_ge, Hw.
  - apply estimate_wordsOf.
  - apply Forall_forall. intros w Hin. unfold wordsOf, wordsIn in Hin.
    apply filter_In in Hin. destruct Hin as [_ Hne].
    destruct w; [discriminate Hne | discriminate].
Qed.

Lemma estimate_nonneg_and_words_count_witness :
  0 <= estimate (str "Hello, World!")
  /\ estimate (str "   ") = 0
  /\ 0 + 1 <= countWord 0 (str "hm").
Proof.
  destruct estimate_nonneg_and_words_count as (Hge & _ & Hws & Hword & _).
  split; [apply Hge|]. split.
  - apply Hws. reflexivity.
  - apply Hword. discriminate.
Defined.

(** C8: [countSyllables] returns a number for every value it is given, and
    when its [try] block throws (the argument is not a string) that number
    is 0. *)
Theorem countSyllables_never_throws (v : JsValue) :
  exists n, countSyllables v = Normal n
            /\ (forall e, countSyllables_try v = Throw e -> n = 0).
Proof.
  unfold countSyllables. destruct (countSyllables_try v) as [n|e].
  - exists n. split; [reflexivity | discriminate].
  - exists 0. split; reflexivity.
Qed.

Lemma countSyllables_never_throws_witness :
  exists n, countSyllables JsUndefined = Normal n /\ n = 0.
Proof.
  destruct (countSyllables_never_throws JsUndefined) as (n & Hn & H0).
  exists n. split; [exact Hn | apply (H0 (TypeError "Cannot read properties"))].
  reflexivity.
Defined.

(** C9: the estimate of two lines joined by a space is the sum of their
    estimates. *)
Theorem estimate_additive (a b : jsstring) :
  estimate (a ++ str " " ++ b) = estimate a + estimate b.
Proof.
  rewrite !estimate_wordsOf. unfold wordsOf, splitWhitespace.
  rewrite normalized_join, wordsIn_split_app_sep by reflexivity.
  apply fold_countWord_app.
Qed.

(** ** The synchronization pass *)

Ltac break_match :=
  match goal with
  | |- context [match ?x with _ => _ end] => destruct x eqn:?
  end.

Lemma pass_try_flags (host : Host) (view : MarkdownView) (this : Plugin) :
  pendingUpdate (snd (pass_try host view this)) = pendingUpdate this
  /\ timers (snd (pass_try host view this)) = timers this
  /\ settings (snd (pass_try host view this)) = settings this.
Proof.
  unfold pass_try. repeat break_match; cbn; repeat split; reflexivity.
Qed.

Lemma pass_finally_isProcessing (this : Plugin) :
  isProcessing (pass_finally this) = false.
Proof. unfold pass_finally. cbn. destruct (pendingUpdate this); reflexivity. Qed.

Lemma pass_finally_timers (this : Plugin) :
  timers (pass_finally this)
  = timers this ++ (if pendingUpdate this
                    then [{| delay := 50; callback := UpdateActiveViewDebounced |}]
                    else []).
Proof.
  unfold pass_finally. cbn. destruct (pendingUpdate this); cbn;
    [reflexivity | symmetry; apply app_nil_r].
Qed.

Lemma updateSyllableCounts_in_flight (host : Host) (view : MarkdownView)
      (this : Plugin) :
  isProcessing this = true ->
  updateSyllableCounts host view this = set_pendingUpdate true this.
Proof. intros H. unfold updateSyllableCounts. rewrite H. reflexivity. Qed.

Lemma updateSyllableCounts_runs (host : Host) (view : MarkdownView)
      (this : Plugin) :
  isProcessing this = false ->
  updateSyllableCounts host view this = passWithTriggers host view 0 this.
Proof. intros H. unfold updateSyllableCounts. rewrite H. reflexivity. Qed.

Lemma triggers_in_flight (host : Host) (view : MarkdownView) (n : nat) :
  forall this,
    isProcessing this = true ->
    triggers host view n this
    = match n with O => this | S _ => set_pendingUpdate true this end.
Proof.
  induction n as [|n IH]; intros this H; [reflexivity|].
  cbn [triggers]. rewrite (updateSyllableCounts_in_flight host view this H).
  rewrite IH by exact H. destruct n; reflexivity.
Qed.

(** The markers a [try] block leaves are rebuilt from the view and the
    settings alone: the first thing it does is to clear the old ones. *)
Lemma pass_try_markers (host : Host) (view : MarkdownView) (this other : Plugin) :
  settings this = settings other ->
  syllableMarkers (snd (pass_try host view this))
  = syllableMarkers (snd (pass_try host view other)).
Proof.
  intros Hs. unfold pass_try, clearSyllableMarkers. cbn. rewrite Hs.
  repeat break_match; cbn; try reflexivity; congruence.
Qed.

Lemma triggers_settings (host : Host) (view : MarkdownView) (n : nat) :
  forall this,
    isProcessing this = true ->
    settings (triggers host view n this) = settings this.
Proof.
  intros this H. rewrite triggers_in_flight by exact H. destruct n; reflexivity.
Qed.

Lemma pass_finally_markers (this : Plugin) :
  syllableMarkers (pass_finally this) = syllableMarkers this.
Proof. unfold pass_finally. cbn. destruct (pendingUpdate this); reflexivity. Qed.

Lemma pass_finally_settings (this : Plugin) :
  settings (pass_finally this) = settings this.
Proof. unfold pass_finally. cbn. destruct (pendingUpdate this); reflexivity. Qed.

Lemma passWithTriggers_markers (host : Host) (view : MarkdownView) (n : nat)
      (this other : Plugin) :
  settings this = settings other ->
  syllableMarkers (passWithTriggers host view n this)
  = syllableMarkers (snd (pass_try host view other)).
Proof.
  intros Hs. unfold passWithTriggers. rewrite pass_finally_markers.
  apply pass_try_markers. rewrite triggers_settings by reflexivity.
  exact Hs.
Qed.

Lemma updateSyllableCounts_settings (host : Host) (view : MarkdownView)
      (this : Plugin) :
  settings (updateSyllableCounts host view this) = settings this.
Proof.
  unfold updateSyllableCounts. destruct (isProcessing this); [reflexivity|].
  rewrite pass_finally_settings.
  destruct (pass_try_flags host view (pass_enter this)) as (_ & _ & ->).
  reflexivity.
Qed.

(** ** Claims about the synchronization pass *)

(** C4: an invocation that finds a pass in flight only sets [pendingUpdate];
    and a pass during which [n] invocations arrive registers one timer of
    50 ms (whose callback asks for one more update) when [n] is positive and
    none when [n] is 0, and leaves the markers the undisturbed pass leaves. *)
Theorem in_flight_triggers_coalesce (host : Host) (view : MarkdownView)
        (n : nat) (this running : Plugin) :
  isProcessing this = false ->
  isProcessing running = true ->
  updateSyllableCounts host view running = set_pendingUpdate true running
  /\ timers (passWithTriggers host view n this)
     = timers this
       ++ (if (0 <? n)%nat
           then [{| delay := 50; callback := UpdateActiveViewDebounced |}]
           else [])
  /\ syllableMarkers (passWithTriggers host view n this)
     = syllableMarkers (updateSyllableCounts host view this).
Proof.
  intros Hidle Hrun. split; [apply updateSyllableCounts_in_flight, Hrun|]. split.
  - unfold passWithTriggers. rewrite pass_finally_timers.
    destruct (pass_try_flags host view (triggers host view n (pass_enter this)))
      as (-> & -> & _).
    rewrite triggers_in_flight by reflexivity.
    destruct n; reflexivity.
  - rewrite (updateSyllableCounts_runs host view this Hidle).
    rewrite (passWithTriggers_markers host view n this this eq_refl).
    rewrite (passWithTriggers_markers host view 0 this this eq_refl).
    reflexivity.
Qed.

Lemma in_flight_triggers_coalesce_witness :
  let view := viewOf "so much depends" [plainLine 0] in
  let this := freshPlugin DEFAULT_SETTINGS in
  timers (passWithTriggers quietHost view 3 this)
  = [{| delay := 50; callback := UpdateActiveViewDebounced |}].
Proof.
  intros view this.
  destruct (in_flight_triggers_coalesce quietHost view 3 this
              (pass_enter this) eq_refl eq_refl) as (_ & H & _).
  exact H.
Defined.

(** C10: an invocation that finds [isProcessing] false leaves it false,
    whether the pass ends normally, aborts early or a host call throws, and
    whatever arrives while it runs. *)
Theorem pass_releases_flag (host : Host) (view : MarkdownView) (n : nat)
        (this : Plugin) :
  isProcessing this = false ->
  isProcessing (updateSyllableCounts host view this) = false
  /\ isProcessing (passWithTriggers host view n this) = false.
Proof.
  intros Hidle. rewrite (updateSyllableCounts_runs host view this Hidle).
  split; apply pass_finally_isProcessing.
Qed.

Lemma pass_releases_flag_witness :
  let host := {| throwsAt := fun c => match c with
                                      | EditorAppendChild => Some (HostError "detached")
                                      | _ => None
                                      end |} in
  let view := viewOf "so much depends" [plainLine 0] in
  isProcessing (updateSyllableCounts host view (freshPlugin DEFAULT_SETTINGS)) = false.
Proof.
  intros host view.
  apply (pass_releases_flag host view 0 (freshPlugin DEFAULT_SETTINGS) eq_refl).
Defined.

(** C7: a second pass over the same view, with the same settings and the
    same host, leaves the same markers as the first. *)
Theorem pass_idempotent (host : Host) (view : MarkdownView) (this : Plugin) :
  syllableMarkers (updateSyllableCounts host view (updateSyllableCounts host view this))
  = syllableMarkers (updateSyllableCounts host view this).
Proof.
  destruct (isProcessing this) eqn:Hp.
  - rewrite (updateSyllableCounts_in_flight host view this Hp).
    rewrite updateSyllableCounts_in_flight by exact Hp. reflexivity.
  - assert (Hidle : isProcessing (updateSyllableCounts host view this) = false).
    { rewrite (updateSyllableCounts_runs host view this Hp).
      apply pass_finally_isProcessing. }
    rewrite (updateSyllableCounts_runs host view _ Hidle).
    rewrite (updateSyllableCounts_runs host view this Hp).
    rewrite (passWithTriggers_markers host view 0 _ this).
    + rewrite (passWithTriggers_markers host view 0 this this eq_refl).
      reflexivity.
    + rewrite <- (updateSyllableCounts_runs host view this Hp).
      apply updateSyllableCounts_settings.
Qed.

(** *** The loop over the candidate range *)

Lemma countSyllables_no_throw (v : JsValue) (e : JsError) :
  countSyllables v <> Throw e.
Proof. unfold countSyllables. destruct (countSyllables_try v); discriminate. Qed.

Lemma markLines_positive (host : Host) (lines : list jsstring)
      (lineElements : list LineElement) (count : nat) :
  forall index markers,
    Forall (positiveAt lines) markers ->
    Forall (positiveAt lines)
      (snd (markLines host false lines lineElements index count markers)).
Proof.
  induction count as [|count IH]; intros index markers Hm; [exact Hm|].
  cbn [markLines].
  destruct ((Z.of_nat (length lines) <=? index)
            || (Z.of_nat (length lineElements) <=? index)); [apply IH, Hm|].
  destruct (at_ lines index) as [line|] eqn:Hline.
  - rewrite countSyllables_string. rewrite orb_false_r.
    destruct (Z.ltb_spec 0 (estimate line)) as [Hpos|_]; [|apply IH, Hm].
    destruct (at_ lineElements index) as [el|]; [|apply IH, Hm].
    destruct (throwsAt host (CreateElement index)); [exact Hm|].
    destruct (throwsAt host (FragmentAppendChild index)); [exact Hm|].
    apply IH, Forall_app. split; [exact Hm|].
    constructor; [|constructor].
    intros l Hl. cbn [newMarker markerLine] in Hl. congruence.
  - change (countSyllables JsUndefined) with (Normal (A := Z) 0).
    cbn [Z.ltb Z.compare orb]. apply IH, Hm.
Qed.

Lemma markLines_keeps (host : Host) (showZero : bool) (lines : list jsstring)
      (lineElements : list LineElement) (m : Marker) (count : nat) :
  forall index markers,
    In m markers ->
    In m (snd (markLines host showZero lines lineElements index count markers)).
Proof.
  induction count as [|count IH]; intros index markers Hm; [exact Hm|].
  cbn [markLines].
  repeat break_match; try exact Hm; try (apply IH, Hm).
  apply IH, in_or_app. left. exact Hm.
Qed.

Lemma markLines_marks (host : Host) (showZero : bool) (lines : list jsstring)
      (lineElements : list LineElement) (i : Z) (line : jsstring)
      (el : LineElement) :
  neverThrows host ->
  at_ lines i = Some line ->
  at_ lineElements i = Some el ->
  (0 <? estimate line) || showZero = true ->
  forall count index markers,
    index <= i < index + Z.of_nat count ->
    In (newMarker i (estimate line) el)
       (snd (markLines host showZero lines lineElements index count markers)).
Proof.
  intros Hquiet Hline Hel Hshow.
  induction count as [|count IH]; intros index markers Hi; [lia|].
  destruct (Z.eq_dec index i) as [->|Hne].
  - cbn [markLines].
    assert (Hb : (Z.of_nat (length lines) <=? i)
                 || (Z.of_nat (length lineElements) <=? i) = false).
    { unfold at_ in Hline, Hel.
      destruct (i <? 0) eqn:E; [discriminate|]. apply Z.ltb_ge in E.
      assert (Z.to_nat i < length lines)%nat
        by (apply nth_error_Some; congruence).
      assert (Z.to_nat i < length lineElements)%nat
        by (apply nth_error_Some; congruence).
      apply orb_false_iff. split; apply Z.leb_gt; lia. }
    rewrite Hb, Hline, countSyllables_string, Hshow, Hel, !Hquiet.
    apply markLines_keeps, in_or_app. right. left. reflexivity.
  - assert (Hi' : index + 1 <= i < index + 1 + Z.of_nat count) by lia.
    cbn [markLines].
    repeat break_match; try (apply IH; exact Hi');
      match goal with
      | H : throwsAt host _ = Some _ |- _ => rewrite Hquiet in H; discriminate
      | _ => idtac
      end.
    exfalso. eapply countSyllables_no_throw; eassumption.
Qed.

(** The markers of a pass on which no host call throws. *)
Lemma pass_try_quiet (host : Host) (view : MarkdownView) (this : Plugin)
      (ed : Editor) (el : EditorElement) :
  neverThrows host ->
  editor view = Some ed ->
  cmEditor view = Some el ->
  cmLines el <> [] ->
  syllableMarkers (snd (pass_try host view this))
  = snd (markLines host (showZeroSyllables (settings this))
           (splitLines (getValue ed)) (cmLines el)
           (fst (candidateRange (settings this) el))
           (Z.to_nat (snd (candidateRange (settings this) el)
                      - fst (candidateRange (settings this) el) + 1))
           []).
Proof.
  intros Hquiet Hed Hel Hne. unfold pass_try, clearSyllableMarkers.
  rewrite Hed, Hel, !Hquiet. cbn [settings set_syllableMarkers syllableMarkers].
  destruct (cmLines el) as [|l0 ls] eqn:Hls; [congruence|].
  cbn [length Nat.eqb].
  replace (if onlyVisibleRange (settings this) then None else None)
    with (@None JsError) by (destruct (onlyVisibleRange (settings this)); reflexivity).
  destruct (candidateRange (settings this) el) as [startLine endLine].
  cbn [fst snd].
  destruct (markLines host (showZeroSyllables (settings this))
              (splitLines (getValue ed)) (l0 :: ls) startLine
              (Z.to_nat (endLine - startLine + 1)) []) as [r markers].
  destruct r; reflexivity.
Qed.

Lemma pass_try_positive (host : Host) (view : MarkdownView) (this : Plugin)
      (ed : Editor) :
  showZeroSyllables (settings this) = false ->
  editor view = Some ed ->
  Forall (positiveAt (splitLines (getValue ed)))
    (syllableMarkers (snd (pass_try host view this))).
Proof.
  intros Hshow Hed. unfold pass_try, clearSyllableMarkers. rewrite Hed.
  cbn [settings set_syllableMarkers syllableMarkers]. rewrite Hshow.
  repeat break_match; cbn; try constructor.
  all: match goal with
       | H : markLines ?h false ?ls ?es ?i ?n [] = (?r, ?ms) |- Forall _ ?ms =>
           replace ms with (snd (markLines h false ls es i n []))
             by (rewrite H; reflexivity);
           apply markLines_positive; constructor
       end.
Qed.

(** C5, as the code has it: with [onlyVisibleRange] off, the candidate range
    is [0 .. min(L, maxLinesToProcess) - 1] where L is the number of rendered
    line elements; it is [0 .. min(N, maxLinesToProcess) - 1] for a document
    of N lines when as many line elements are rendered. *)
Theorem candidateRange_whole_document (st : SyllableCounterSettings)
        (el : EditorElement) (content : jsstring) :
  onlyVisibleRange st = false ->
  candidateRange st el
  = (0, Z.min (Z.of_nat (length (cmLines el))) (maxLinesToProcess st) - 1)
  /\ (length (cmLines el) = length (splitLines content) ->
      candidateRange st el
      = (0, Z.min (Z.of_nat (length (splitLines content)))
              (maxLinesToProcess st) - 1)).
Proof.
  intros Hoff. unfold candidateRange. rewrite Hoff.
  split; [|intros <-]; f_equal; lia.
Qed.

Lemma candidateRange_whole_document_witness :
  let st := {| maxLinesToProcess := 2; updateDebounceInterval := 500;
               onlyVisibleRange := false; showZeroSyllables := false |} in
  let el := {| editorRect := {| top := 0; bottom := 600 |};
               cmLines := [plainLine 0; plainLine 20; plainLine 40] |} in
  candidateRange st el = (0, 1).
Proof.
  intros st el.
  destruct (candidateRange_whole_document st el
              (str "a" ++ LF ++ str "b" ++ LF ++ str "c") eq_refl) as [_ H].
  apply H. reflexivity.
Defined.

(** C5 as stated fails when fewer line elements are rendered than the
    document has lines: three lines of text, two line elements, and the
    range ends at 1, not at min(3, 500) - 1. *)
Lemma candidateRange_follows_rendered_lines :
  let st := {| maxLinesToProcess := 500; updateDebounceInterval := 500;
               onlyVisibleRange := false; showZeroSyllables := false |} in
  let el := {| editorRect := {| top := 0; bottom := 600 |};
               cmLines := [plainLine 0; plainLine 20] |} in
  let content := str "a" ++ LF ++ str "b" ++ LF ++ str "c" in
  length (splitLines content) = 3%nat
  /\ candidateRange st el = (0, 1)
  /\ candidateRange st el
     <> (0, Z.min (Z.of_nat (length (splitLines content)))
              (maxLinesToProcess st) - 1).
Proof. cbv zeta. repeat split. vm_compute. discriminate. Qed.

(** C6, as the code has it: with [showZeroSyllables] off, no marker of a
    pass sits on a line whose estimate is 0; with it on, and no host call
    throwing, each line of the candidate range that has a line element and
    estimate 0 gets a marker whose text is "0 syllables".  The code has no
    verbosity setting and no terse text. *)
Theorem zero_lines_display (host : Host) (view : MarkdownView) (this : Plugin)
        (ed : Editor) :
  isProcessing this = false ->
  editor view = Some ed ->
  (showZeroSyllables (settings this) = false ->
   forall m line,
     In m (syllableMarkers (updateSyllableCounts host view this)) ->
     at_ (splitLines (getValue ed)) (markerLine m) = Some line ->
     estimate line <> 0)
  /\ (showZeroSyllables (settings this) = true ->
      neverThrows host ->
      forall el i line lineElement,
        cmEditor view = Some el ->
        fst (candidateRange (settings this) el) <= i
          <= snd (candidateRange (settings this) el) ->
        at_ (splitLines (getValue ed)) i = Some line ->
        at_ (cmLines el) i = Some lineElement ->
        estimate line = 0 ->
        exists m,
          In m (syllableMarkers (updateSyllableCounts host view this))
          /\ markerLine m = i /\ markerCount m = 0
          /\ textContent m = str "0 syllables").
Proof.
  intros Hidle Hed.
  rewrite (updateSyllableCounts_runs host view this Hidle).
  rewrite (passWithTriggers_markers host view 0 this this eq_refl).
  split.
  - intros Hshow m line Hin Hline.
    pose proof (pass_try_positive host view this ed Hshow Hed) as Hall.
    rewrite Forall_forall in Hall.
    specialize (Hall m Hin line Hline). lia.
  - intros Hshow Hquiet el i line lineElement Hel Hi Hline Hle Hzero.
    exists (newMarker i 0 lineElement).
    split; [|repeat split].
    rewrite (pass_try_quiet host view this ed el Hquiet Hed Hel).
    + rewrite <- Hzero.
      apply markLines_marks; try assumption.
      * rewrite Hshow. apply orb_true_r.
      * lia.
    + intros Hnil. rewrite Hnil in Hle. unfold at_ in Hle.
      destruct (i <? 0); [discriminate|]. destruct (Z.to_nat i); discriminate.
Qed.

Lemma zero_lines_display_witness :
  let view := viewOf "" [plainLine 0] in
  let st := {| maxLinesToProcess := 500; updateDebounceInterval := 500;
               onlyVisibleRange := false; showZeroSyllables := true |} in
  exists m,
    In m (syllableMarkers (updateSyllableCounts quietHost view (freshPlugin st)))
    /\ markerLine m = 0 /\ markerCount m = 0
    /\ textContent m = str "0 syllables".
Proof.
  intros view st.
  destruct (zero_lines_display quietHost view (freshPlugin st)
              {| getValue := str "" |} eq_refl eq_refl) as [_ H].
  apply (H eq_refl (fun _ => eq_refl)
           {| editorRect := {| top := 0; bottom := 600 |};
              cmLines := [plainLine 0] |} 0 (str "") (plainLine 0)).
  - reflexivity.
  - vm_compute. split; discriminate.
  - reflexivity.
  - reflexivity.
  - reflexivity.
Defined.

(** C6 as stated fails for the terse text: with [showZeroSyllables] on, the
    marker of an empty line reads "0 syllables", which is the verbose text of
    the specification and not its terse text "0". *)
Lemma zero_line_text_is_never_terse :
  let view := viewOf "" [plainLine 0] in
  let st := {| maxLinesToProcess := 500; updateDebounceInterval := 500;
               onlyVisibleRange := false; showZeroSyllables := true |} in
  map textContent
    (syllableMarkers (updateSyllableCounts quietHost view (freshPlugin st)))
  = [Spec.displayText Spec.Verbose 0]
  /\ Spec.displayText Spec.Verbose 0 <> Spec.displayText Spec.Terse 0
  /\ Spec.displayText Spec.Terse 0 = str "0".
Proof. cbv zeta. repeat split. vm_compute. discriminate. Qed.

(** * Further properties of the estimator *)

Lemma lowerUnit_fixed (c d : codeUnit) :
  In d (lowerUnit c) -> lowerUnit d = [d].
Proof.
  unfold lowerUnit.
  destruct (N.leb_spec 65 c), (N.leb_spec c 90), (N.eqb_spec c 8490),
    (N.eqb_spec c 304); cbn [andb In]; intros Hd;
    repeat match goal with
           | H : _ \/ _ |- _ => destruct H
           | H : False |- _ => destruct H
           end; subst d;
    destruct (N.leb_spec 65 c), (N.leb_spec c 90), (N.eqb_spec c 8490),
      (N.eqb_spec c 304); cbn [andb]; try reflexivity; try lia;
    match goal with
    | |- context [(65 <=? ?x)%N] =>
        destruct (N.leb_spec 65 x), (N.leb_spec x 90), (N.eqb_spec x 8490),
          (N.eqb_spec x 304); cbn [andb]; try reflexivity; lia
    end.
Qed.

Lemma toLowerCase_idempotent (s : jsstring) :
  toLowerCase (toLowerCase s) = toLowerCase s.
Proof.
  unfold toLowerCase. induction s as [|c s IH]; [reflexivity|].
  cbn [flat_map]. rewrite flat_map_app, IH. f_equal.
  assert (H : forall l, (forall d, In d l -> lowerUnit d = [d]) ->
                        flat_map lowerUnit l = l).
  { induction l as [|d l IHl]; intros Hl; [reflexivity|].
    cbn [flat_map]. rewrite (Hl d (or_introl eq_refl)). cbn [app].
    f_equal. apply IHl. intros d' Hd'. apply Hl. right. exact Hd'. }
  apply H. intros d. apply lowerUnit_fixed.
Qed.

Lemma not_becomesLetter (c : codeUnit) :
  becomesLetter c = false -> lowerUnit c = [c] /\ isLowerAZ c = false.
Proof.
  unfold becomesLetter, lowerUnit, isLowerAZ. intros Hb.
  destruct (N.leb_spec 65 c), (N.leb_spec c 90), (N.eqb_spec c 8490),
    (N.eqb_spec c 304); cbn [andb existsb orb] in *;
    try (split; [reflexivity | rewrite orb_false_r in Hb; exact Hb]);
    exfalso; try (subst; discriminate Hb).
  all: rewrite orb_false_r in Hb;
    destruct (N.leb_spec 97 (c + 32)), (N.leb_spec (c + 32) 122);
    cbn [andb] in Hb; try discriminate Hb; lia.
Qed.

Lemma isLowerAZ_not_whitespace (c : codeUnit) :
  isLowerAZ c = true -> isWhiteSpace c = false.
Proof.
  unfold isLowerAZ. intros H. bool_to_prop H.
  destruct (isWhiteSpace c) eqn:E; [|reflexivity].
  unfold isWhiteSpace in E. bool_to_prop E. lia.
Qed.

(** X1: the estimate does not depend on the case of the letters: lowering a
    line first gives the same count. *)
Theorem estimate_case_insensitive (s : jsstring) :
  estimate (toLowerCase s) = estimate s.
Proof.
  rewrite !estimate_unfold. unfold normalize.
  rewrite toLowerCase_idempotent. reflexivity.
Qed.

(** X2: every code unit that is not a letter separates words like a space
    does: a digit, an apostrophe, a hyphen or a line feed between two texts
    gives the sum of their estimates. *)
Theorem estimate_splits_at_non_letter (a b : jsstring) (c : codeUnit) :
  becomesLetter c = false ->
  estimate (a ++ c :: b) = estimate a + estimate b.
Proof.
  intros Hc. destruct (not_becomesLetter c Hc) as [Hl Hz].
  rewrite !estimate_wordsOf. unfold wordsOf, splitWhitespace.
  assert (Hjoin : replaceNonLetters (toLowerCase (a ++ c :: b))
                  = replaceNonLetters (toLowerCase a)
                    ++ 32%N :: replaceNonLetters (toLowerCase b)).
  { unfold toLowerCase, replaceNonLetters.
    rewrite flat_map_app, map_app. cbn [flat_map]. rewrite Hl.
    cbn [app map]. rewrite Hz. reflexivity. }
  rewrite Hjoin, wordsIn_split_app_sep by reflexivity.
  apply fold_countWord_app.
Qed.

Lemma estimate_splits_at_non_letter_witness :
  estimate (str "don't") = estimate (str "don") + estimate (str "t").
Proof.
  apply (estimate_splits_at_non_letter (str "don") (str "t") 39%N).
  reflexivity.
Defined.

Lemma wordsIn_split_nil_iff (t : jsstring) :
  wordsIn (splitWs false t) = [] <-> forallb isWhiteSpace t = true.
Proof.
  split; [|apply wordsIn_split_spaces].
  induction t as [|c t IH]; intros H; [reflexivity|].
  cbn [forallb]. destruct (isWhiteSpace c) eqn:Hc.
  - rewrite (wordsIn_splitWs_space false c t Hc) in H. apply IH, H.
  - rewrite (splitWs_letter false c t Hc) in H. discriminate H.
Qed.

Lemma normalized_spaces_iff (s : jsstring) :
  forallb isWhiteSpace (replaceNonLetters s) = true
  <-> filter isLowerAZ s = [].
Proof.
  unfold replaceNonLetters. induction s as [|c s IH]; [split; reflexivity|].
  cbn [map forallb filter]. destruct (isLowerAZ c) eqn:Hc.
  - rewrite (isLowerAZ_not_whitespace c Hc). split; discriminate.
  - cbn [andb]. exact IH.
Qed.

Lemma wordsIn_all_nonempty (ps : list jsstring) :
  Forall (fun w => w <> []) (wordsIn ps).
Proof.
  apply Forall_forall. intros w Hin. unfold wordsIn in Hin.
  apply filter_In in Hin. destruct Hin as [_ Hne].
  destruct w; [discriminate Hne | discriminate].
Qed.

Lemma fold_countWord_lower (ws : list jsstring) :
  Forall (fun w => w <> []) ws ->
  forall t, t + Z.of_nat (length ws) <= fold_left countWord ws t.
Proof.
  induction 1 as [|w ws Hw _ IH]; intros t; cbn [fold_left length]; [lia|].
  specialize (IH (countWord t w)).
  pose proof (countWord_nonempty_ge t w Hw). lia.
Qed.

(** X3: the estimate of a line is 0 exactly when the line has no letter, so
    a line shows no marker by default exactly when it has no letter. *)
Theorem estimate_zero_iff_no_letter (s : jsstring) :
  estimate s = 0 <-> lettersOf s = [].
Proof.
  unfold lettersOf. rewrite <- normalized_spaces_iff, <- wordsIn_split_nil_iff.
  rewrite estimate_wordsOf. unfold wordsOf, splitWhitespace.
  set (ws := wordsIn (splitWs false (replaceNonLetters (toLowerCase s)))).
  split.
  - intros H0.
    pose proof (fold_countWord_lower ws (wordsIn_all_nonempty _) 0) as Hlow.
    destruct ws; [reflexivity | cbn [length] in Hlow; lia].
  - intros ->. reflexivity.
Qed.

(** *** An upper bound: the number of letters *)

Lemma vowelGroupsFrom_le (w : jsstring) :
  forall p n,
    vowelGroupsFrom p n w
    <= n + (Z.of_nat (length w) + (if p then 0 else 1)) / 2.
Proof.
  induction w as [|c w IH]; intros p n; cbn [vowelGroupsFrom length].
  - destruct p; cbn; lia.
  - set (v := vowelsIncludes (Some c)).
    destruct v eqn:Hv, p; cbn [andb negb]; cbv iota.
    + specialize (IH true n). cbv iota in IH. Z.div_mod_to_equations. lia.
    + specialize (IH true (n + 1)). cbv iota in IH. Z.div_mod_to_equations. lia.
    + specialize (IH false n). cbv iota in IH. Z.div_mod_to_equations. lia.
    + specialize (IH false n). cbv iota in IH. Z.div_mod_to_equations. lia.
Qed.

Lemma countWord_le_length (w : jsstring) :
  countWord 0 w <= Z.of_nat (length w).
Proof.
  unfold countWord. destruct w as [|c w]; [cbn; lia|].
  destruct (Nat.eqb_spec (length (c :: w)) 1) as [->|Hlen]; [lia|].
  set (x := c :: w) in *.
  assert (Hlen2 : (2 <= length x)%nat) by (subst x; cbn [length] in *; lia).
  pose proof (vowelGroups_nonneg x) as Hv.
  pose proof (vowelGroupsFrom_le x false 0) as Hup. fold (vowelGroups x) in Hup.
  pose proof (silentE_bounds x (vowelGroups x) Hv).
  pose proof (leEnding_bounds x (silentE x (vowelGroups x))).
  rewrite atLeastOne_max by lia. cbv iota in Hup.
  Z.div_mod_to_equations. lia.
Qed.

Lemma fold_countWord_upper (ws : list jsstring) :
  forall t, fold_left countWord ws t <= t + Z.of_nat (length (concat ws)).
Proof.
  induction ws as [|w ws IH]; intros t; cbn [fold_left concat]; [cbn; lia|].
  specialize (IH (countWord t w)). rewrite length_app.
  rewrite (countWord_shift t w) in *. pose proof (countWord_le_length w). lia.
Qed.

Lemma concat_wordsIn (ps : list jsstring) : concat (wordsIn ps) = concat ps.
Proof.
  induction ps as [|p ps IH]; [reflexivity|].
  unfold wordsIn in *.
  destruct p; cbn [filter nonEmpty concat]; rewrite IH; reflexivity.
Qed.

(** Gluing the pieces of a split back gives the string without its white
    space. *)
Lemma concat_splitWs (s : jsstring) :
  forall b, concat (splitWs b s) = filter (fun c => negb (isWhiteSpace c)) s.
Proof.
  induction s as [|c s IH]; intros b; [reflexivity|].
  cbn [filter]. destruct (isWhiteSpace c) eqn:Hc.
  - cbn [splitWs negb]. rewrite Hc. destruct b; cbn [concat app]; apply IH.
  - rewrite (splitWs_letter b c s Hc). cbn [concat negb app].
    rewrite <- (IH false). f_equal. destruct (splitWs false s); reflexivity.
Qed.

Lemma normalized_letters (s : jsstring) :
  filter (fun c => negb (isWhiteSpace c)) (replaceNonLetters s)
  = filter isLowerAZ s.
Proof.
  unfold replaceNonLetters. induction s as [|c s IH]; [reflexivity|].
  cbn [map filter]. destruct (isLowerAZ c) eqn:Hc.
  - rewrite (isLowerAZ_not_whitespace c Hc). cbn [negb]. f_equal. exact IH.
  - cbn. exact IH.
Qed.

(** X4: the estimate lies between the number of words of the line and the
    number of its letters. *)
Theorem estimate_between_words_and_letters (s : jsstring) :
  Z.of_nat (length (wordsOf s)) <= estimate s <= Z.of_nat (length (lettersOf s)).
Proof.
  rewrite estimate_wordsOf. split.
  - pose proof (fold_countWord_lower (wordsOf s) (wordsIn_all_nonempty _) 0).
    lia.
  - pose proof (fold_countWord_upper (wordsOf s) 0) as H.
    unfold wordsOf, splitWhitespace, lettersOf in *.
    rewrite concat_wordsIn, concat_splitWs, normalized_letters in H. lia.
Qed.

(** X5: the two adjustments never both apply to a word: the silent-e
    decrement is kept off words ending in le, the only ones the le increment
    can touch.  A word of two letters or more therefore counts its vowel
    groups, one less or one more, and at least 1. *)
Theorem adjustments_exclusive (w : jsstring) (n m : Z) :
  (silentE w n = n \/ leEnding w m = m)
  /\ ((2 <= length w)%nat ->
      Z.max 1 (vowelGroups w - 1) <= countWord 0 w <= vowelGroups w + 1).
Proof.
  split.
  - unfold silentE, leEnding.
    destruct (endsWith w (str "le")); cbn [negb andb].
    + left. rewrite andb_false_r. reflexivity.
    + right. reflexivity.
  - intros Hlen. unfold countWord.
    destruct w as [|c w]; [cbn [length] in Hlen; lia|].
    destruct (Nat.eqb_spec (length (c :: w)) 1) as [H1|_]; [lia|].
    set (x := c :: w) in *.
    pose proof (vowelGroups_nonneg x) as Hv.
    pose proof (silentE_bounds x (vowelGroups x) Hv) as Hs.
    pose proof (leEnding_bounds x (silentE x (vowelGroups x))) as Hl.
    assert (Hex : silentE x (vowelGroups x) = vowelGroups x
                  \/ leEnding x (silentE x (vowelGroups x))
                     = silentE x (vowelGroups x)).
    { unfold silentE at 1, leEnding.
      destruct (endsWith x (str "le")); cbn [negb andb].
      - left. rewrite andb_false_r. reflexivity.
      - right. reflexivity. }
    assert (Hdec : vowelGroups x - 1 <= silentE x (vowelGroups x)).
    { unfold silentE. destruct (_ && _ && _); lia. }
    assert (Hone : vowelGroups x <= 1 -> silentE x (vowelGroups x) = vowelGroups x).
    { intros Hle. unfold silentE.
      destruct (Z.ltb_spec 1 (vowelGroups x)); [lia|].
      rewrite andb_false_r. reflexivity. }
    rewrite atLeastOne_max by lia. lia.
Qed.

Lemma adjustments_exclusive_witness :
  Z.max 1 (vowelGroups (str "table") - 1) <= countWord 0 (str "table")
    <= vowelGroups (str "table") + 1.
Proof.
  destruct (adjustments_exclusive (str "table") 0 0) as [_ H].
  apply H. vm_compute. lia.
Defined.

(** * Further properties of the visible range *)

Lemma at_range {A : Type} (xs : list A) (j : Z) (x : A) :
  at_ xs j = Some x -> 0 <= j < Z.of_nat (length xs).
Proof.
  unfold at_. intros Hat. destruct (Z.ltb_spec j 0); [discriminate|].
  assert (Z.to_nat j < length xs)%nat by (apply nth_error_Some; congruence).
  lia.
Qed.

Lemma at_In {A : Type} (xs : list A) (j : Z) (x : A) :
  at_ xs j = Some x -> In x xs.
Proof.
  unfold at_. destruct (j <? 0); [discriminate|]. apply nth_error_In.
Qed.

Lemma at_app_l {A : Type} (xs ys : list A) (j : Z) :
  j < Z.of_nat (length xs) -> at_ (xs ++ ys) j = at_ xs j.
Proof.
  intros H. unfold at_. destruct (Z.ltb_spec j 0); [reflexivity|].
  apply nth_error_app1. lia.
Qed.

Lemma at_app_r {A : Type} (xs ys : list A) (j : Z) :
  Z.of_nat (length xs) <= j ->
  at_ (xs ++ ys) j = at_ ys (j - Z.of_nat (length xs)).
Proof.
  intros H. unfold at_.
  destruct (Z.ltb_spec j 0), (Z.ltb_spec (j - Z.of_nat (length xs)) 0); try lia.
  rewrite nth_error_app2 by lia. f_equal. lia.
Qed.

Lemma at_app_here {A : Type} (xs ys : list A) (y : A) :
  at_ (xs ++ y :: ys) (Z.of_nat (length xs)) = Some y.
Proof.
  rewrite at_app_r by lia. rewrite Z.sub_diag. reflexivity.
Qed.

Lemma visibleAt_app (rect : Rect) (xs ys : list LineElement) (j : Z) :
  visibleAt rect xs j -> visibleAt rect (xs ++ ys) j.
Proof.
  intros (el & Hat & Hv). exists el. split; [|exact Hv].
  rewrite at_app_l; [exact Hat | apply (at_range xs j el Hat)].
Qed.

Lemma noneVisible_at (rect : Rect) (xs : list LineElement) (j : Z)
      (el : LineElement) :
  noneVisible rect xs -> at_ xs j = Some el -> lineIsVisible rect el = false.
Proof.
  intros Hn Hat. unfold noneVisible in Hn. rewrite Forall_forall in Hn.
  apply Hn, (at_In xs j el Hat).
Qed.

Lemma VisibleSpan_app (rect : Rect) (xs ys : list LineElement) (s e : Z) :
  VisibleSpan rect xs s e -> VisibleSpan rect (xs ++ ys) s e.
Proof.
  intros (Hse & He & Hs' & He' & Hfirst). unfold VisibleSpan.
  rewrite length_app. repeat split; try lia.
  - apply visibleAt_app, Hs'.
  - apply visibleAt_app, He'.
  - intros j el Hj Hat. rewrite at_app_l in Hat by lia.
    apply (Hfirst j el Hj Hat).
Qed.

Lemma length_snoc {A : Type} (xs : list A) (x : A) :
  Z.of_nat (length (xs ++ [x])) = Z.of_nat (length xs) + 1.
Proof. rewrite length_app. cbn [length]. lia. Qed.

Lemma visibleScan_step (rect : Rect) (i startLine endLine : Z)
      (el : LineElement) (rest : list LineElement) :
  visibleScan rect i startLine endLine (el :: rest)
  = if lineIsVisible rect el then
      visibleScan rect (i + 1) (if startLine =? -1 then i else startLine) i rest
    else if negb (startLine =? -1) && (bottom rect <? top (lineRect el))
    then (startLine, endLine)
    else visibleScan rect (i + 1) startLine endLine rest.
Proof. reflexivity. Qed.

(** What the scan returns: no start when no line is visible, and otherwise
    the first visible line with a visible line at or after it. *)
Lemma visibleScan_span (rect : Rect) (els : list LineElement) :
  forall pre startLine endLine,
    (startLine = -1 -> noneVisible rect pre) ->
    (startLine <> -1 -> VisibleSpan rect pre startLine endLine) ->
    let r := visibleScan rect (Z.of_nat (length pre)) startLine endLine els in
    (fst r = -1 /\ noneVisible rect (pre ++ els))
    \/ VisibleSpan rect (pre ++ els) (fst r) (snd r).
Proof.
  induction els as [|el rest IH]; intros pre startLine endLine Hnone Hspan r.
  - subst r. cbn [visibleScan fst snd]. rewrite app_nil_r.
    destruct (Z.eq_dec startLine (-1)) as [E|E]; [left | right]; auto.
  - subst r. rewrite visibleScan_step.
    replace (pre ++ el :: rest) with ((pre ++ [el]) ++ rest)
      by (rewrite <- app_assoc; reflexivity).
    rewrite <- (length_snoc pre el).
    destruct (lineIsVisible rect el) eqn:Hv.
    + apply IH.
      * intros E. exfalso.
        destruct (Z.eqb_spec startLine (-1)); lia.
      * intros _.
        assert (Hhere : visibleAt rect (pre ++ [el]) (Z.of_nat (length pre))).
        { exists el. split; [apply at_app_here | exact Hv]. }
        destruct (Z.eqb_spec startLine (-1)) as [E|E].
        -- unfold VisibleSpan. rewrite length_snoc.
           repeat split; try lia; try exact Hhere.
           intros j x Hj Hat. rewrite at_app_l in Hat by lia.
           apply (noneVisible_at rect pre j x (Hnone E) Hat).
        -- destruct (Hspan E) as (Hse & He & Hs' & He' & Hfirst).
           unfold VisibleSpan. rewrite length_snoc.
           repeat split; try lia; try exact Hhere.
           ++ apply visibleAt_app, Hs'.
           ++ intros j x Hj Hat. rewrite at_app_l in Hat by lia.
              apply (Hfirst j x Hj Hat).
    + destruct (negb (startLine =? -1) && (bottom rect <? top (lineRect el)))
        eqn:Hbreak.
      * right. cbn [fst snd].
        apply andb_prop in Hbreak. destruct Hbreak as [Hs _].
        apply negb_true_iff, Z.eqb_neq in Hs.
        apply VisibleSpan_app, VisibleSpan_app, Hspan, Hs.
      * apply IH.
        -- intros E. apply Forall_app. split; [apply Hnone, E|].
           constructor; [exact Hv | constructor].
        -- intros E. apply VisibleSpan_app, Hspan, E.
Qed.

Lemma getVisibleLineRange_scan (el : EditorElement) :
  getVisibleLineRange el
  = match cmLines el with
    | [] => None
    | _ =>
        let r := visibleScan (editorRect el) 0 (-1) (-1) (cmLines el) in
        if fst r =? -1 then None
        else Some (Z.max 0 (fst r - 10),
                   Z.min (Z.of_nat (length (cmLines el)) - 1) (snd r + 10))
    end.
Proof.
  unfold getVisibleLineRange. destruct (cmLines el); [reflexivity|].
  destruct (visibleScan (editorRect el) 0 (-1) (-1) (l :: l0)); reflexivity.
Qed.

Lemma visibleScan_whole (el : EditorElement) :
  let r := visibleScan (editorRect el) 0 (-1) (-1) (cmLines el) in
  (fst r = -1 /\ noneVisible (editorRect el) (cmLines el))
  \/ VisibleSpan (editorRect el) (cmLines el) (fst r) (snd r).
Proof.
  apply (visibleScan_span (editorRect el) (cmLines el) [] (-1) (-1)).
  - intros _. constructor.
  - intros H. congruence.
Qed.

Lemma VisibleSpan_not_none (rect : Rect) (els : list LineElement) (s e : Z) :
  VisibleSpan rect els s e -> noneVisible rect els -> False.
Proof.
  intros (_ & _ & (x & Hat & Hv) & _) Hn.
  rewrite (noneVisible_at rect els s x Hn Hat) in Hv. discriminate.
Qed.

(** X6: the range [getVisibleLineRange] returns is the first visible line
    and a visible line at or after it, widened by 10 lines on each side and
    clamped to the rendered lines; so it lies inside them and is not
    empty. *)
Theorem getVisibleLineRange_padded_span (el : EditorElement) (s e : Z) :
  getVisibleLineRange el = Some (s, e) ->
  exists first last,
    VisibleSpan (editorRect el) (cmLines el) first last
    /\ s = Z.max 0 (first - 10)
    /\ e = Z.min (Z.of_nat (length (cmLines el)) - 1) (last + 10)
    /\ 0 <= s <= first /\ last <= e <= Z.of_nat (length (cmLines el)) - 1.
Proof.
  rewrite getVisibleLineRange_scan. intros H.
  destruct (cmLines el) as [|l0 ls] eqn:Hls; [discriminate|].
  rewrite <- Hls in *. cbv zeta in H.
  destruct (visibleScan_whole el) as [[Hm _]|Hspan].
  - rewrite Hm in H. discriminate.
  - destruct (Z.eqb_spec (fst (visibleScan (editorRect el) 0 (-1) (-1) (cmLines el)))
                (-1)) as [|_]; [discriminate|].
    injection H as <- <-.
    eexists _, _. split; [exact Hspan|].
    destruct Hspan as (Hse & He & _). lia.
Qed.

Lemma getVisibleLineRange_padded_span_witness :
  let el := {| editorRect := {| top := 0; bottom := 600 |};
               cmLines := [plainLine (-500); plainLine 0; plainLine 20] |} in
  exists first last,
    VisibleSpan (editorRect el) (cmLines el) first last
    /\ 0 = Z.max 0 (first - 10)
    /\ 2 = Z.min (Z.of_nat (length (cmLines el)) - 1) (last + 10)
    /\ 0 <= 0 <= first /\ last <= 2 <= Z.of_nat (length (cmLines el)) - 1.
Proof.
  intros el. apply (getVisibleLineRange_padded_span el 0 2). reflexivity.
Defined.

Lemma getVisibleLineRange_none (el : EditorElement) :
  getVisibleLineRange el = None
  <-> noneVisible (editorRect el) (cmLines el).
Proof.
  rewrite getVisibleLineRange_scan.
  destruct (cmLines el) as [|l0 ls] eqn:Hls.
  - split; [constructor | reflexivity].
  - rewrite <- Hls. cbv zeta.
    destruct (visibleScan_whole el) as [[Hm Hn]|Hspan].
    + rewrite Hm. split; [intros _; exact Hn | reflexivity].
    + split.
      * destruct (Z.eqb_spec (fst (visibleScan (editorRect el) 0 (-1) (-1)
                                     (cmLines el))) (-1)) as [E|_];
          [|discriminate].
        intros _. destruct Hspan as (Hse & _). lia.
      * intros Hn. destruct (VisibleSpan_not_none _ _ _ _ Hspan Hn).
Qed.

(** X7: [getVisibleLineRange] returns nothing exactly when no rendered line
    is visible (in particular when no line is rendered). *)
Theorem getVisibleLineRange_none_iff (el : EditorElement) :
  getVisibleLineRange el = None
  <-> noneVisible (editorRect el) (cmLines el).
Proof. apply getVisibleLineRange_none. Qed.

(** *** Every visible line is in the range, for lines laid out downwards *)

Lemma not_visible_below (rect : Rect) (el x : LineElement) :
  rectOk rect -> rectOk (lineRect el) ->
  lineIsVisible rect el = false ->
  bottom rect < top (lineRect el) ->
  top (lineRect el) <= top (lineRect x) ->
  lineIsVisible rect x = false.
Proof.
  unfold rectOk, lineIsVisible. intros Hr Hel Hv Hb Hx.
  apply andb_false_iff in Hv. apply andb_false_iff. right.
  apply Z.leb_gt. destruct Hv as [Hv|Hv]; apply Z.leb_gt in Hv; lia.
Qed.

Lemma visibleScan_covers (rect : Rect) (els : list LineElement) :
  rectOk rect ->
  forall pre startLine endLine,
    topToBottom els ->
    (startLine = -1 -> noneVisible rect pre) ->
    (startLine <> -1 ->
     startLine < Z.of_nat (length pre)
     /\ forall j, visibleAt rect pre j -> startLine <= j <= endLine) ->
    let r := visibleScan rect (Z.of_nat (length pre)) startLine endLine els in
    forall j, visibleAt rect (pre ++ els) j -> fst r <= j <= snd r.
Proof.
  intros Hrect.
  induction els as [|el rest IH];
    intros pre startLine endLine [Hok Hsorted] Hnone Hcov r j Hj.
  - subst r. cbn [visibleScan fst snd]. rewrite app_nil_r in Hj.
    destruct (Z.eq_dec startLine (-1)) as [E|E].
    + destruct Hj as (x & Hat & Hv).
      rewrite (noneVisible_at rect pre j x (Hnone E) Hat) in Hv. discriminate.
    + apply (Hcov E), Hj.
  - subst r. rewrite visibleScan_step.
    apply Forall_cons_iff in Hok. destruct Hok as [Hel Hok].
    apply StronglySorted_inv in Hsorted. destruct Hsorted as [Hsorted Hle].
    assert (Hsplit : pre ++ el :: rest = (pre ++ [el]) ++ rest)
      by (rewrite <- app_assoc; reflexivity).
    destruct (lineIsVisible rect el) eqn:Hv.
    + rewrite <- (length_snoc pre el). rewrite Hsplit in Hj.
      apply (IH (pre ++ [el])); try assumption; try (split; assumption).
      * intros E. exfalso. destruct (Z.eqb_spec startLine (-1)); lia.
      * intros _. rewrite length_snoc. split.
        { destruct (Z.eqb_spec startLine (-1)) as [E|E]; [lia|].
          destruct (Hcov E). lia. }
        intros k Hk. destruct Hk as (x & Hat & Hx).
        pose proof (at_range _ _ _ Hat) as Hrange. rewrite length_snoc in Hrange.
        destruct (Z.eqb_spec startLine (-1)) as [E|E].
        -- destruct (Z.eq_dec k (Z.of_nat (length pre))) as [->|Hne]; [lia|].
           rewrite at_app_l in Hat by lia.
           rewrite (noneVisible_at rect pre k x (Hnone E) Hat) in Hx.
           discriminate.
        -- destruct (Hcov E) as [Hlt Hall].
           destruct (Z.eq_dec k (Z.of_nat (length pre))) as [->|Hne]; [lia|].
           rewrite at_app_l in Hat by lia.
           assert (startLine <= k <= endLine) by (apply Hall; exists x; auto).
           lia.
    + destruct (negb (startLine =? -1) && (bottom rect <? top (lineRect el)))
        eqn:Hbreak.
      * cbn [fst snd]. apply andb_prop in Hbreak. destruct Hbreak as [Hs Hb].
        apply negb_true_iff, Z.eqb_neq in Hs. apply Z.ltb_lt in Hb.
        destruct (Hcov Hs) as [Hlt Hall].
        destruct Hj as (x & Hat & Hx).
        destruct (Z_lt_le_dec j (Z.of_nat (length pre))) as [Hin|Hout].
        -- rewrite at_app_l in Hat by lia. apply Hall. exists x. auto.
        -- exfalso. rewrite at_app_r in Hat by lia. apply at_In in Hat.
           destruct Hat as [<-|Hin]; [congruence|].
           rewrite Forall_forall in Hle, Hok.
           rewrite (not_visible_below rect el x Hrect Hel Hv Hb (Hle x Hin)) in Hx.
           discriminate.
      * rewrite <- (length_snoc pre el). rewrite Hsplit in Hj.
        apply (IH (pre ++ [el])); try assumption; try (split; assumption).
        -- intros E. apply Forall_app. split; [apply Hnone, E|].
           constructor; [exact Hv | constructor].
        -- intros E. destruct (Hcov E) as [Hlt Hall]. rewrite length_snoc.
           split; [lia|]. intros k (x & Hat & Hx).
           pose proof (at_range _ _ _ Hat) as Hrange.
           rewrite length_snoc in Hrange.
           destruct (Z.eq_dec k (Z.of_nat (length pre))) as [->|Hne].
           ++ rewrite at_app_here in Hat. congruence.
           ++ rewrite at_app_l in Hat by lia. apply Hall. exists x. auto.
Qed.

(** X8: when the lines are laid out from top to bottom, every visible line
    lies in the range [getVisibleLineRange] returns: stopping at the first
    line below the editor loses none. *)
Theorem getVisibleLineRange_covers_visible (el : EditorElement) (s e j : Z) :
  rectOk (editorRect el) ->
  topToBottom (cmLines el) ->
  getVisibleLineRange el = Some (s, e) ->
  visibleAt (editorRect el) (cmLines el) j ->
  s <= j <= e.
Proof.
  intros Hrect Hlayout Hrange Hj.
  pose proof (visibleScan_covers (editorRect el) (cmLines el) Hrect []
                (-1) (-1) Hlayout (fun _ => Forall_nil _)
                (fun H => False_ind _ (H eq_refl)) j Hj) as Hcov.
  cbv zeta in Hcov. cbn [length app] in Hcov. change (Z.of_nat 0) with 0 in Hcov.
  rewrite getVisibleLineRange_scan in Hrange.
  destruct Hj as (x & Hat & _). pose proof (at_range _ _ _ Hat) as Hb.
  set (r := visibleScan (editorRect el) 0 (-1) (-1) (cmLines el)) in *.
  set (n := Z.of_nat (length (cmLines el))) in *.
  destruct (cmLines el) as [|l0 ls]; [discriminate|].
  cbv zeta in Hrange. destruct (fst r =? -1); [discriminate|].
  assert (Hs : s = Z.max 0 (fst r - 10)) by congruence.
  assert (He : e = Z.min (n - 1) (snd r + 10)) by congruence.
  lia.
Qed.

Lemma getVisibleLineRange_covers_visible_witness :
  let el := {| editorRect := {| top := 0; bottom := 600 |};
               cmLines := [plainLine (-500); plainLine 0; plainLine 20] |} in
  0 <= 1 <= 2.
Proof.
  intros el. apply (getVisibleLineRange_covers_visible el 0 2 1).
  - unfold rectOk. cbn. lia.
  - split.
    + repeat constructor; unfold rectOk; cbn; lia.
    + repeat constructor; cbn; lia.
  - reflexivity.
  - exists (plainLine 0). split; reflexivity.
Defined.

(** * Further properties of the candidate range *)

Lemma getVisibleLineRange_bounds (el : EditorElement) (s e : Z) :
  getVisibleLineRange el = Some (s, e) ->
  0 <= s <= e /\ e <= Z.of_nat (length (cmLines el)) - 1.
Proof.
  rewrite getVisibleLineRange_scan. intros H.
  set (r := visibleScan (editorRect el) 0 (-1) (-1) (cmLines el)) in *.
  pose proof (visibleScan_whole el) as Hscan. cbv zeta in Hscan. fold r in Hscan.
  set (n := Z.of_nat (length (cmLines el))) in *.
  assert (Hn : forall f l, VisibleSpan (editorRect el) (cmLines el) f l ->
                           0 <= f <= l /\ l < n).
  { intros f l (Hfl & Hl & _). subst n. lia. }
  destruct (cmLines el) as [|l0 ls]; [discriminate|].
  cbv zeta in H. destruct (Z.eqb_spec (fst r) (-1)) as [|Hne]; [discriminate|].
  assert (Hs : s = Z.max 0 (fst r - 10)) by congruence.
  assert (He : e = Z.min (n - 1) (snd r + 10)) by congruence.
  destruct Hscan as [[Hm _]|Hspan]; [congruence|].
  apply Hn in Hspan. lia.
Qed.

Lemma candidateRange_within (st : SyllableCounterSettings) (el : EditorElement) :
  let '(startLine, endLine) := candidateRange st el in
  0 <= startLine
  /\ endLine <= Z.of_nat (length (cmLines el)) - 1
  /\ endLine - startLine + 1 <= maxLinesToProcess st
  /\ (cmLines el <> [] -> 1 <= maxLinesToProcess st -> startLine <= endLine).
Proof.
  unfold candidateRange.
  assert (Hlen : cmLines el <> [] -> 1 <= Z.of_nat (length (cmLines el))).
  { destruct (cmLines el); [congruence | cbn [length]; lia]. }
  destruct (onlyVisibleRange st).
  - destruct (getVisibleLineRange el) as [[s e]|] eqn:Hv.
    + apply getVisibleLineRange_bounds in Hv.
      destruct (Z.ltb_spec (maxLinesToProcess st) (e - s + 1));
        repeat split; intros; try lia.
    + repeat split; intros; try lia. specialize (Hlen ltac:(assumption)). lia.
  - repeat split; intros; try lia. specialize (Hlen ltac:(assumption)). lia.
Qed.

(** X9: in either mode the candidate range starts at a line index that is
    not negative, ends at the last rendered line at the latest, and spans at
    most [maxLinesToProcess] lines; it is not empty as soon as a line is
    rendered and [maxLinesToProcess] is positive. *)
Theorem candidateRange_bounds (st : SyllableCounterSettings) (el : EditorElement) :
  let '(startLine, endLine) := candidateRange st el in
  0 <= startLine
  /\ endLine <= Z.of_nat (length (cmLines el)) - 1
  /\ endLine - startLine + 1 <= maxLinesToProcess st
  /\ (cmLines el <> [] -> 1 <= maxLinesToProcess st -> startLine <= endLine).
Proof. apply candidateRange_within. Qed.

Lemma candidateRange_bounds_witness :
  let st := DEFAULT_SETTINGS in
  let el := {| editorRect := {| top := 0; bottom := 600 |};
               cmLines := [plainLine (-500); plainLine 0; plainLine 20] |} in
  fst (candidateRange st el) <= snd (candidateRange st el).
Proof.
  intros st el. pose proof (candidateRange_bounds st el) as H.
  destruct (candidateRange st el) as [s e]. cbn [fst snd].
  destruct H as (_ & _ & _ & H). apply H; [discriminate | vm_compute; discriminate].
Defined.

(** X10: with [onlyVisibleRange] on and no rendered line visible, the pass
    falls back to the range it takes with the option off: the first
    min(L, maxLinesToProcess) rendered lines. *)
Theorem candidateRange_falls_back (st : SyllableCounterSettings)
        (el : EditorElement) :
  onlyVisibleRange st = true ->
  noneVisible (editorRect el) (cmLines el) ->
  candidateRange st el
  = (0, Z.min (Z.of_nat (length (cmLines el))) (maxLinesToProcess st) - 1).
Proof.
  intros Hon Hnone. unfold candidateRange. rewrite Hon.
  apply getVisibleLineRange_none in Hnone. rewrite Hnone.
  f_equal. lia.
Qed.

Lemma candidateRange_falls_back_witness :
  let el := {| editorRect := {| top := 0; bottom := 600 |};
               cmLines := [plainLine 2000; plainLine 2020] |} in
  candidateRange DEFAULT_SETTINGS el = (0, 1).
Proof.
  intros el. apply (candidateRange_falls_back DEFAULT_SETTINGS el).
  - reflexivity.
  - repeat constructor.
Defined.

(** * Further properties of the pass *)

(** What the loop adds to the markers it starts from: markers built from
    their own line, in the order of the lines, at most one for each turn, on
    lines of the range. *)
Lemma markLines_shape (host : Host) (showZero : bool) (lines : list jsstring)
      (lineElements : list LineElement) (count : nat) :
  forall index markers,
  exists new,
    snd (markLines host showZero lines lineElements index count markers)
    = markers ++ new
    /\ Forall (fun m => faithful showZero lines lineElements m
                        /\ index <= markerLine m < index + Z.of_nat count) new
    /\ StronglySorted Z.lt (map markerLine new)
    /\ (length new <= count)%nat.
Proof.
  induction count as [|count IH]; intros index markers.
  - exists []. cbn [markLines snd]. rewrite app_nil_r.
    repeat split; constructor.
  - assert (Hskip : forall ms,
      exists new,
        snd (markLines host showZero lines lineElements (index + 1) count ms)
        = ms ++ new
        /\ Forall (fun m => faithful showZero lines lineElements m
                            /\ index <= markerLine m
                               < index + Z.of_nat (S count)) new
        /\ StronglySorted Z.lt (map markerLine new)
        /\ (length new <= S count)%nat).
    { intros ms. destruct (IH (index + 1) ms) as (new & Heq & Hall & Hs & Hlen).
      exists new. repeat split; try assumption; try lia.
      eapply Forall_impl; [|exact Hall]. cbv beta. intros m [Hf Hr].
      split; [exact Hf | lia]. }
    assert (Hstop : exists new,
      markers = markers ++ new
      /\ Forall (fun m => faithful showZero lines lineElements m
                          /\ index <= markerLine m
                             < index + Z.of_nat (S count)) new
      /\ StronglySorted Z.lt (map markerLine new)
      /\ (length new <= S count)%nat).
    { exists []. rewrite app_nil_r. repeat split; try constructor.
      cbn [length]. lia. }
    cbn [markLines].
    destruct ((Z.of_nat (length lines) <=? index)
              || (Z.of_nat (length lineElements) <=? index)) eqn:Hguard;
      [apply Hskip|].
    apply orb_false_iff in Hguard. destruct Hguard as [Hguard _].
    apply Z.leb_gt in Hguard.
    destruct (at_ lines index) as [line|] eqn:Hline.
    + rewrite countSyllables_string.
      destruct ((0 <? estimate line) || showZero) eqn:Hshow; [|apply Hskip].
      destruct (at_ lineElements index) as [el|] eqn:Hel; [|apply Hskip].
      destruct (throwsAt host (CreateElement index)); [exact Hstop|].
      destruct (throwsAt host (FragmentAppendChild index)); [exact Hstop|].
      destruct (IH (index + 1) (markers ++ [newMarker index (estimate line) el]))
        as (new & Heq & Hall & Hs & Hlen).
      exists (newMarker index (estimate line) el :: new).
      rewrite Heq, <- app_assoc. cbn [app]. split; [reflexivity|].
      split; [|split].
      * constructor.
        -- split; [|cbn [newMarker markerLine]; lia].
           exists line, el. cbn [newMarker markerLine].
           repeat split; try assumption.
           apply orb_prop in Hshow. destruct Hshow as [Hpos|Hz];
             [left; apply Z.ltb_lt, Hpos | right; exact Hz].
        -- eapply Forall_impl; [|exact Hall]. cbv beta. intros m [Hf Hr].
           split; [exact Hf | lia].
      * cbn [map]. constructor; [exact Hs|].
        apply Forall_map. eapply Forall_impl; [|exact Hall]. cbv beta.
        intros m [_ Hr]. cbn [newMarker markerLine]. lia.
      * cbn [length]. lia.
    + destruct (countSyllables JsUndefined) as [n|e] eqn:Hc;
        [|destruct (countSyllables_no_throw _ _ Hc)].
      destruct ((0 <? n) || showZero); [|apply Hskip].
      destruct (at_ lineElements index) as [el|] eqn:Hel; [|apply Hskip].
      exfalso. apply at_range in Hel.
      unfold at_ in Hline. destruct (Z.ltb_spec index 0); [lia|].
      apply nth_error_None in Hline. lia.
Qed.

(** The markers a [try] block leaves: none, or what the loop over the
    candidate range has pushed. *)
Lemma pass_try_shape (host : Host) (view : MarkdownView) (this : Plugin) :
  syllableMarkers (snd (pass_try host view this)) = []
  \/ exists ed el,
       editor view = Some ed /\ cmEditor view = Some el /\ cmLines el <> []
       /\ syllableMarkers (snd (pass_try host view this))
          = snd (markLines host (showZeroSyllables (settings this))
                   (splitLines (getValue ed)) (cmLines el)
                   (fst (candidateRange (settings this) el))
                   (Z.to_nat (snd (candidateRange (settings this) el)
                              - fst (candidateRange (settings this) el) + 1))
                   []).
Proof.
  unfold pass_try, clearSyllableMarkers.
  cbn [settings set_syllableMarkers syllableMarkers].
  destruct (editor view) as [ed|]; [|left; reflexivity].
  destruct (throwsAt host QuerySelector); [left; reflexivity|].
  destruct (cmEditor view) as [el|]; [|left; reflexivity].
  destruct (throwsAt host QuerySelectorAll); [left; reflexivity|].
  destruct (cmLines el) as [|l0 ls] eqn:Hls; [left; reflexivity|].
  cbn [length Nat.eqb]. rewrite <- Hls.
  destruct (if onlyVisibleRange (settings this)
            then throwsAt host GetVisibleLineRange else None);
    [left; reflexivity|].
  destruct (candidateRange (settings this) el) as [startLine endLine] eqn:Hr.
  destruct (throwsAt host CreateDocumentFragment); [left; reflexivity|].
  destruct (throwsAt host GetValue); [left; reflexivity|].
  right. exists ed, el. repeat split; try congruence.
  rewrite Hr. cbn [fst snd].
  destruct (markLines host (showZeroSyllables (settings this))
              (splitLines (getValue ed)) (cmLines el) startLine
              (Z.to_nat (endLine - startLine + 1)) []) as [r markers].
  destruct r; [destruct (throwsAt host EditorAppendChild)|]; reflexivity.
Qed.

Lemma updateSyllableCounts_markers (host : Host) (view : MarkdownView)
      (this : Plugin) :
  isProcessing this = false ->
  syllableMarkers (updateSyllableCounts host view this)
  = syllableMarkers (snd (pass_try host view this)).
Proof.
  intros Hidle. rewrite (updateSyllableCounts_runs host view this Hidle).
  apply passWithTriggers_markers. reflexivity.
Qed.

(** X11: every marker a pass leaves was built from the line of text and the
    line element at its own index, which lies in the candidate range: its
    count is the estimate of that line, its text and offset follow from them,
    and the line has a positive estimate unless zero lines are shown.  This
    holds also when a host call throws during the pass. *)
Theorem markers_faithful (host : Host) (view : MarkdownView) (this : Plugin)
        (ed : Editor) (el : EditorElement) (m : Marker) :
  isProcessing this = false ->
  editor view = Some ed ->
  cmEditor view = Some el ->
  In m (syllableMarkers (updateSyllableCounts host view this)) ->
  faithful (showZeroSyllables (settings this)) (splitLines (getValue ed))
    (cmLines el) m
  /\ fst (candidateRange (settings this) el) <= markerLine m
     <= snd (candidateRange (settings this) el).
Proof.
  intros Hidle Hed Hel Hin.
  rewrite (updateSyllableCounts_markers host view this Hidle) in Hin.
  destruct (pass_try_shape host view this)
    as [Hnil|(ed' & el' & Hed' & Hel' & _ & Heq)].
  - rewrite Hnil in Hin. destruct Hin.
  - assert (ed' = ed) by congruence. assert (el' = el) by congruence.
    subst ed' el'. rewrite Heq in Hin.
    set (s := fst (candidateRange (settings this) el)) in *.
    set (e := snd (candidateRange (settings this) el)) in *.
    destruct (markLines_shape host (showZeroSyllables (settings this))
                (splitLines (getValue ed)) (cmLines el)
                (Z.to_nat (e - s + 1)) s [])
      as (new & Hnew & Hall & _).
    rewrite Hnew in Hin. cbn [app] in Hin.
    rewrite Forall_forall in Hall. destruct (Hall m Hin) as [Hf Hr].
    split; [exact Hf | lia].
Qed.

Lemma markers_faithful_witness :
  let view := viewOf "so much depends" [plainLine 0] in
  let this := freshPlugin DEFAULT_SETTINGS in
  let m := newMarker 0 4 (plainLine 0) in
  faithful false (splitLines (str "so much depends")) [plainLine 0] m
  /\ 0 <= markerLine m <= 0.
Proof.
  intros view this m.
  apply (markers_faithful quietHost view this
           {| getValue := str "so much depends" |}
           {| editorRect := {| top := 0; bottom := 600 |};
              cmLines := [plainLine 0] |} m eq_refl eq_refl eq_refl).
  left. reflexivity.
Defined.



(** X13: a pass never leaves more markers than [maxLinesToProcess], whatever
    the size of the document and of the visible range. *)
Theorem markers_at_most_max (host : Host) (view : MarkdownView) (this : Plugin) :
  isProcessing this = false ->
  Z.of_nat (length (syllableMarkers (updateSyllableCounts host view this)))
  <= Z.max 0 (maxLinesToProcess (settings this)).
Proof.
  intros Hidle. rewrite (updateSyllableCounts_markers host view this Hidle).
  destruct (pass_try_shape host view this)
    as [Hnil|(ed & el & _ & _ & _ & Heq)].
  - rewrite Hnil. cbn [length]. lia.
  - rewrite Heq.
    pose proof (candidateRange_within (settings this) el) as Hb.
    destruct (candidateRange (settings this) el) as [s e]. cbn [fst snd].
    destruct (markLines_shape host (showZeroSyllables (settings this))
                (splitLines (getValue ed)) (cmLines el)
                (Z.to_nat (e - s + 1)) s [])
      as (new & Hnew & _ & _ & Hlen).
    rewrite Hnew. cbn [app]. lia.
Qed.

Lemma markers_at_most_max_witness :
  let st := {| maxLinesToProcess := 1; updateDebounceInterval := 500;
               onlyVisibleRange := false; showZeroSyllables := true |} in
  let view := viewOf "so much depends" [plainLine 0; plainLine 20] in
  Z.of_nat (length (syllableMarkers
                      (updateSyllableCounts quietHost view (freshPlugin st))))
  <= Z.max 0 1.
Proof.
  intros st view.
  apply (markers_at_most_max quietHost view (freshPlugin st)). reflexivity.
Defined.




(** X15: when no host call throws, a line of the candidate range that has a
    line element gets its marker exactly when its estimate is positive or
    zero lines are shown, and that marker is the only one on the line. *)
Theorem line_marked_iff (host : Host) (view : MarkdownView) (this : Plugin)
        (ed : Editor) (el : EditorElement) (i : Z) (line : jsstring)
        (lineElement : LineElement) :
  isProcessing this = false ->
  neverThrows host ->
  editor view = Some ed ->
  cmEditor view = Some el ->
  fst (candidateRange (settings this) el) <= i
    <= snd (candidateRange (settings this) el) ->
  at_ (splitLines (getValue ed)) i = Some line ->
  at_ (cmLines el) i = Some lineElement ->
  (In (newMarker i (estimate line) lineElement)
      (syllableMarkers (updateSyllableCounts host view this))
   <-> (0 < estimate line \/ showZeroSyllables (settings this) = true))
  /\ (forall m,
        In m (syllableMarkers (updateSyllableCounts host view this)) ->
        markerLine m = i ->
        m = newMarker i (estimate line) lineElement).
Proof.
  intros Hidle Hquiet Hed Hel Hi Hline Hle.
  assert (Hne : cmLines el <> []).
  { intros Hnil. rewrite Hnil in Hle. unfold at_ in Hle.
    destruct (i <? 0); [discriminate|]. destruct (Z.to_nat i); discriminate. }
  rewrite (updateSyllableCounts_markers host view this Hidle).
  rewrite (pass_try_quiet host view this ed el Hquiet Hed Hel Hne).
  set (s := fst (candidateRange (settings this) el)) in *.
  set (e := snd (candidateRange (settings this) el)) in *.
  destruct (markLines_shape host (showZeroSyllables (settings this))
              (splitLines (getValue ed)) (cmLines el)
              (Z.to_nat (e - s + 1)) s [])
    as (new & Hnew & Hall & _).
  rewrite Forall_forall in Hall.
  assert (Honly : forall m,
             In m (snd (markLines host (showZeroSyllables (settings this))
                          (splitLines (getValue ed)) (cmLines el) s
                          (Z.to_nat (e - s + 1)) [])) ->
             markerLine m = i ->
             m = newMarker i (estimate line) lineElement
             /\ (0 < estimate line \/ showZeroSyllables (settings this) = true)).
  { intros m Hin Hm. rewrite Hnew in Hin. cbn [app] in Hin.
    destruct (Hall m Hin) as [(line' & el' & Hl' & He' & Heq & Hcond) _].
    rewrite Hm in Hl', He', Heq.
    assert (line' = line) by congruence. assert (el' = lineElement) by congruence.
    subst line' el'. split; assumption. }
  split; [split|].
  - intros Hin. apply (Honly _ Hin). reflexivity.
  - intros Hcond. apply markLines_marks; try assumption; [|lia].
    destruct Hcond as [Hpos|Hz].
    + apply Z.ltb_lt in Hpos. rewrite Hpos. reflexivity.
    + rewrite Hz. apply orb_true_r.
  - intros m Hin Hm. apply (Honly m Hin Hm).
Qed.

Lemma line_marked_iff_witness :
  let view := viewOf "so much depends" [plainLine 0] in
  In (newMarker 0 4 (plainLine 0))
     (syllableMarkers
        (updateSyllableCounts quietHost view (freshPlugin DEFAULT_SETTINGS)))
  <-> (0 < 4 \/ false = true).
Proof.
  intros view.
  apply (line_marked_iff quietHost view (freshPlugin DEFAULT_SETTINGS)
           {| getValue := str "so much depends" |}
           {| editorRect := {| top := 0; bottom := 600 |};
              cmLines := [plainLine 0] |} 0 (str "so much depends")
           (plainLine 0)).
  - reflexivity.
  - intros c. reflexivity.
  - reflexivity.
  - reflexivity.
  - vm_compute. split; discriminate.
  - reflexivity.
  - reflexivity.
Defined.

Lemma updateSyllableCounts_idle (host : Host) (view : MarkdownView)
      (this : Plugin) :
  isProcessing this = false ->
  isProcessing (updateSyllableCounts host view this) = false
  /\ pendingUpdate (updateSyllableCounts host view this) = false
  /\ timers (updateSyllableCounts host view this) = timers this.
Proof.
  intros Hidle. rewrite (updateSyllableCounts_runs host view this Hidle).
  unfold passWithTriggers. cbn [triggers].
  destruct (pass_try_flags host view (pass_enter this)) as (Hp & Ht & _).
  split; [apply pass_finally_isProcessing|].
  unfold pass_finally. cbn [set_isProcessing pendingUpdate].
  rewrite Hp. cbn [pass_enter set_pendingUpdate pendingUpdate].
  cbn [set_isProcessing timers pendingUpdate]. rewrite Hp, Ht.
  split; reflexivity.
Qed.

(** X16: without an editor, without the editor element or without a rendered
    line, a pass leaves no marker, gives the flag back and registers no
    timer: the markers of the previous pass are gone. *)
Theorem pass_without_context_clears (host : Host) (view : MarkdownView)
        (this : Plugin) :
  isProcessing this = false ->
  editor view = None \/ cmEditor view = None
  \/ (exists el, cmEditor view = Some el /\ cmLines el = []) ->
  syllableMarkers (updateSyllableCounts host view this) = []
  /\ isProcessing (updateSyllableCounts host view this) = false
  /\ timers (updateSyllableCounts host view this) = timers this.
Proof.
  intros Hidle Hctx.
  destruct (updateSyllableCounts_idle host view this Hidle) as (Hp & _ & Ht).
  split; [|split; assumption].
  rewrite (updateSyllableCounts_markers host view this Hidle).
  destruct (pass_try_shape host view this)
    as [Hnil|(ed & el & Hed & Hel & Hne & _)]; [exact Hnil|].
  destruct Hctx as [H|[H|(el' & H & Hnil)]]; congruence.
Qed.

Lemma pass_without_context_clears_witness :
  let view := {| editor := None; cmEditor := None |} in
  let this := {| settings := DEFAULT_SETTINGS;
                 syllableMarkers := [newMarker 0 4 (plainLine 0)];
                 isProcessing := false; pendingUpdate := false;
                 timers := [] |} in
  syllableMarkers (updateSyllableCounts quietHost view this) = [].
Proof.
  intros view this.
  destruct (pass_without_context_clears quietHost view this eq_refl
              (or_introl eq_refl)) as [H _].
  exact H.
Defined.

(** X17: invocations that follow one another, none arriving while another
    runs, keep the plugin idle: after any number of them, over any hosts and
    views, the flag is free, no timer has been registered and the settings
    are the same; a request left pending by an earlier pass is dropped, not
    replayed. *)
Theorem runs_stay_idle (steps : list (Host * MarkdownView)) (this : Plugin) :
  isProcessing this = false ->
  isProcessing (runs steps this) = false
  /\ timers (runs steps this) = timers this
  /\ settings (runs steps this) = settings this
  /\ (steps <> [] -> pendingUpdate (runs steps this) = false).
Proof.
  revert this. induction steps as [|[host view] steps IH]; intros this Hidle.
  - cbn [runs]. repeat split; try assumption. congruence.
  - cbn [runs].
    destruct (updateSyllableCounts_idle host view this Hidle) as (Hp & Hq & Ht).
    destruct (IH _ Hp) as (Hp' & Ht' & Hs' & Hq').
    repeat split.
    + exact Hp'.
    + rewrite Ht'. exact Ht.
    + rewrite Hs'. apply updateSyllableCounts_settings.
    + intros _. destruct steps as [|step steps']; [exact Hq|].
      apply Hq'. discriminate.
Qed.

Lemma runs_stay_idle_witness :
  let view := viewOf "so much depends" [plainLine 0] in
  let this := {| settings := DEFAULT_SETTINGS; syllableMarkers := [];
                 isProcessing := false; pendingUpdate := true;
                 timers := [] |} in
  timers (runs [(quietHost, view); (quietHost, view)] this) = [].
Proof.
  intros view this.
  destruct (runs_stay_idle [(quietHost, view); (quietHost, view)] this eq_refl)
    as (_ & H & _).
  exact H.
Defined.

(** * The lines of a document *)

Lemma estimate_at_line_feed (a b : jsstring) :
  estimate (a ++ 10%N :: b) = estimate a + estimate b.
Proof.
  rewrite !estimate_wordsOf. unfold wordsOf, splitWhitespace.
  assert (Hjoin : replaceNonLetters (toLowerCase (a ++ 10%N :: b))
                  = replaceNonLetters (toLowerCase a)
                    ++ 32%N :: replaceNonLetters (toLowerCase b)).
  { unfold toLowerCase, replaceNonLetters.
    rewrite flat_map_app, map_app. reflexivity. }
  rewrite Hjoin, wordsIn_split_app_sep by reflexivity.
  apply fold_countWord_app.
Qed.

Lemma splitLines_not_nil (s : jsstring) : splitLines s <> [].
Proof.
  destruct s as [|c s]; cbn [splitLines]; [discriminate|].
  destruct (c =? 10)%N; [discriminate|].
  destruct (splitLines s); discriminate.
Qed.

Lemma estimate_by_lines (s : jsstring) :
  forall p,
    estimate (p ++ s)
    = estimate (p ++ hd [] (splitLines s))
      + fold_right Z.add 0 (map estimate (tl (splitLines s))).
Proof.
  induction s as [|c s IH]; intros p.
  - cbn [splitLines hd tl map fold_right]. lia.
  - cbn [splitLines]. destruct (N.eqb_spec c 10) as [->|Hc].
    + cbn [hd tl]. rewrite estimate_at_line_feed, app_nil_r.
      pose proof (IH []) as IH0. cbn [app] in IH0. rewrite IH0.
      pose proof (splitLines_not_nil s) as Hne.
      destruct (splitLines s) as [|l ls]; [congruence|].
      cbn [hd tl map fold_right]. lia.
    + pose proof (splitLines_not_nil s) as Hne.
      replace (p ++ c :: s) with ((p ++ [c]) ++ s)
        by (rewrite <- app_assoc; reflexivity).
      rewrite (IH (p ++ [c])).
      destruct (splitLines s) as [|l ls]; [congruence|].
      cbn [hd tl]. rewrite <- app_assoc. reflexivity.
Qed.

(** X18: the estimates of the lines of a document add up to the estimate of
    the whole text: the counts shown line by line lose and repeat nothing. *)
Theorem estimate_sum_of_lines (content : jsstring) :
  estimate content
  = fold_right Z.add 0 (map estimate (splitLines content)).
Proof.
  pose proof (estimate_by_lines content []) as H. cbn [app] in H. rewrite H.
  pose proof (splitLines_not_nil content) as Hne.
  destruct (splitLines content) as [|l ls]; [congruence|].
  reflexivity.
Qed.
